(** * safe_learning/functions.py: Delaunay triangulation on regular grids

    A shallow embedding of [GridWorld], [PiecewiseConstant] and
    [Triangulation].  Floating point numbers are modelled by exact rationals
    ([Qc], canonical fractions with Leibniz equality), numpy integers by [Z].
    Every numpy call that can raise is modelled by a function into [option],
    [None] standing for the exception.  A batch of points is a list of rows
    and a vectorised operation is the row operation mapped over the batch.
    Rounding and the range of int64 are outside this model: the index
    conversions of [GridWorld] are embedded a second time over IEEE binary64
    numbers (module [Binary64]), where the code is evaluated on inputs on
    which rounding decides the outcome, and a theorem that needs the vertex
    count to fit int64 says so ([fits_int64]). *)

From Stdlib Require Import ZArith QArith Qcanon Qround Lqa Lia.
From Stdlib Require Floats.
From stdpp Require Import base tactics option list numbers.

Local Open Scope Z_scope.

(** ** The numpy primitives the module uses *)

Module Numpy.

(** Scalars. *)
Definition of_int (n : Z) : Qc := Qc_of_Z n.
Definition maximum (x y : Qc) : Qc := if decide (x ≤ y)%Qc then y else x.
Definition minimum (x y : Qc) : Qc := if decide (x ≤ y)%Qc then x else y.

(** [np.clip(x, lo, hi)] is [minimum(maximum(x, lo), hi)]. *)
Definition clip (x lo hi : Qc) : Qc := minimum (maximum x lo) hi.

Definition floor (x : Qc) : Z := Qfloor x.

(** [np.floor_divide] on floats, already cast with [astype(np.int)]. *)
Definition floor_divide (x u : Qc) : Z := floor (x / u)%Qc.

(** [x % u] on floats: the result has the sign of the divisor. *)
Definition remainder (x u : Qc) : Qc := (x - of_int (floor_divide x u) * u)%Qc.

(** [np.rint] followed by [astype(np.int)]: ties go to the even integer. *)
Definition rint (x : Qc) : Z :=
let f := floor x in
let r := (x - of_int f)%Qc in
if decide (r < Q2Qc (1 # 2))%Qc then f
else if decide (Q2Qc (1 # 2) < r)%Qc then f + 1
else if Z.even f then f else f + 1.

(** [np.finfo(np.float64).eps]. *)
Definition eps : Qc := Q2Qc (1 # 2 ^ 52).

(** [np.prod] of a shape, without the wrap-around of int64: see
  [fits_int64]. *)
Definition prod (dims : list Z) : Z := foldr Z.mul 1 dims.

(** Row-major (C order) flat index of a multi-index, and back. *)
Fixpoint ravel (dims ijk : list Z) : Z :=
match dims, ijk with
| _ :: ds, k :: ks => k * prod ds + ravel ds ks
| _, _ => 0
end.

Fixpoint unravel (dims : list Z) (i : Z) : list Z :=
match dims with
| [] => []
| _ :: ds => i `div` prod ds :: unravel ds (i `mod` prod ds)
end.

(** [np.ravel_multi_index(ijk, dims)] with the default [mode='raise']. *)
Definition ravel_multi_index (ijk dims : list Z) : option Z :=
if decide (Forall2 (λ k d, 0 ≤ k < d) ijk dims)
then Some (ravel dims ijk) else None.

(** [np.unravel_index(i, dims)]: raises outside [0, prod dims). *)
Definition unravel_index (i : Z) (dims : list Z) : option (list Z) :=
if decide (0 ≤ i < prod dims) then Some (unravel dims i) else None.

(** [a[i]] for an integer [i]: negative indices count from the end. *)
Definition getitem {A : Type} (a : list A) (i : Z) : option A :=
let n := Z.of_nat (length a) in
if decide (0 ≤ i < n) then a !! Z.to_nat i
else if decide (- n ≤ i < 0) then a !! Z.to_nat (n + i)
else None.

(** [a[idx]] for an integer array [idx] (fancy indexing). *)
Definition getitems {A : Type} (a : list A) (idx : list Z) : option (list A) :=
mapM (getitem a) idx.

(** Vectors and matrices (lists of rows). *)
Definition vsum (v : list Qc) : Qc := foldr Qcplus 0%Qc v.
Definition vadd (v w : list Qc) : list Qc := zip_with Qcplus v w.
Definition vsub (v w : list Qc) : list Qc := zip_with Qcminus v w.
Definition vmul (v w : list Qc) : list Qc := zip_with Qcmult v w.
Definition vdiv (v w : list Qc) : list Qc := zip_with Qcdiv v w.

(** [np.einsum('j,j->', v, w)]. *)
Definition dot (v w : list Qc) : Qc := vsum (vmul v w).

(** Column [k] of a matrix. *)
Definition column (m : list (list Qc)) (k : nat) : list Qc :=
(λ row, default 0%Qc (row !! k)) <$> m.

(** [np.einsum('j,jk->k', v, m)] for an [n]-column matrix [m]. *)
Definition vecmat (n : nat) (v : list Qc) (m : list (list Qc)) : list Qc :=
(λ k, dot v (column m k)) <$> seq 0 n.

(** [np.einsum('jk,k->j', m, v)]. *)
Definition matvec (m : list (list Qc)) (v : list Qc) : list Qc :=
(λ row, dot row v) <$> m.

(** [x * v] for a scalar [x]. *)
Definition vscale (x : Qc) (v : list Qc) : list Qc := Qcmult x <$> v.

(** [np.eye(n)]. *)
Definition identity (n : nat) : list (list Qc) :=
(λ i, <[i := 1%Qc]> (replicate n 0%Qc)) <$> seq 0 n.

(** [a.dot(b)] for matrices, [b] with [n] columns. *)
Definition matmul (n : nat) (a b : list (list Qc)) : list (list Qc) :=
(λ row, vecmat n row b) <$> a.

(** [np.zeros((k, n))]. *)
Definition zeros (k n : nat) : list (list Qc) := replicate k (replicate n 0%Qc).

(** [np.diag(v)] for a vector [v]. *)
Definition diag (v : list Qc) : list (list Qc) :=
imap (λ i x, <[i := x]> (replicate (length v) 0%Qc)) v.

(** [np.arange(n)]. *)
Definition arange (n : nat) : list Z := Z.of_nat <$> seq 0 n.

(** [np.repeat(a, n)]: every entry [n] times in a row. *)
Definition repeat {A} (a : list A) (n : nat) : list A :=
a ≫= replicate n.

(** [np.reshape(a, (n, -1))] of a flat array: rows of [length a / n]
  consecutive entries; it raises when [n] does not divide the length. *)
Fixpoint chunks {A} (rows width : nat) (a : list A) : list (list A) :=
match rows with
| O => []
| S rows' => take width a :: chunks rows' width (drop width a)
end.

Definition reshape {A} (a : list A) (n : nat) : option (list (list A)) :=
if decide (n ≠ 0 ∧ length a `mod` n = 0)%nat
then Some (chunks n (length a `div` n)%nat a) else None.

End Numpy.

(** ** GridWorld *)

(** The constructor arguments.  The attributes [offset], [unit_maxes],
    [offset_limits], [nrectangles], [nindex] and [ndim] are computed once in
    [__init__] from them and never assigned again, so they are functions of
    the record. *)
Record GridWorld := {
  limits : list (Qc * Qc);
  num_points : list Z;
  vertex_values : option (list Qc)
}.

(** [num_points] may be given as one integer for all dimensions. *)
Definition GridWorld_init (lims : list (Qc * Qc)) (num : Z + list Z)
    (values : option (list Qc)) : GridWorld :=
  {| limits := lims;
     num_points := match num with
                   | inl n => replicate (length lims) n
                   | inr ns => ns
                   end;
     vertex_values := values |}.

Section GridWorld.
Context (self : GridWorld).

Definition offset : list Qc := fst <$> limits self.

Definition unit_maxes : list Qc :=
  zip_with (λ lim n, ((lim.2 - lim.1) / Numpy.of_int n)%Qc)
           (limits self) (num_points self).

Definition offset_limits : list (Qc * Qc) :=
  (λ lim, (0%Qc, (lim.2 - lim.1)%Qc)) <$> limits self.

Definition nrectangles : Z := Numpy.prod (num_points self).
Definition num_vertices : list Z := (λ n, n + 1) <$> num_points self.
Definition nindex : Z := Numpy.prod num_vertices.
Definition ndim : nat := length (limits self).

(** One row of [_center_states]. *)
Definition center_row (clip : bool) (state : list Qc) : list Qc :=
  let centered := Numpy.vsub state offset in
  if clip then
    zip_with (λ x lim, Numpy.clip x (lim.1 + 2 * Numpy.eps)%Qc
                                    (lim.2 - 2 * Numpy.eps)%Qc)
             centered offset_limits
  else centered.

Definition _center_states (states : list (list Qc)) (clip : bool)
    : list (list Qc) :=
  center_row clip <$> states.

(** One entry of [index_to_state]. *)
Definition index_to_state_row (index : Z) : option (list Qc) :=
  ijk_index ← Numpy.unravel_index index num_vertices;
  Some (Numpy.vadd (Numpy.vmul (Numpy.of_int <$> ijk_index) unit_maxes)
                   offset).

Definition index_to_state (indices : list Z) : option (list (list Qc)) :=
  mapM index_to_state_row indices.

(** One row of [np.clip(states, self.limits[:, 0], self.limits[:, 1])]. *)
Definition clip_to_limits (state : list Qc) : list Qc :=
  zip_with (λ x lim, Numpy.clip x lim.1 lim.2) state (limits self).

(** One row of [state_to_index]. *)
Definition state_to_index_row (state : list Qc) : option Z :=
  let clipped := clip_to_limits state in
  let scaled := Numpy.vdiv (Numpy.vsub clipped offset) unit_maxes in
  Numpy.ravel_multi_index (Numpy.rint <$> scaled) num_vertices.

Definition state_to_index (states : list (list Qc)) : option (list Z) :=
  mapM state_to_index_row states.

(** One row of [state_to_rectangle]; [offset = False] means that the row is
    already centred and clipped. *)
Definition state_to_rectangle_row (offset : bool) (state : list Qc)
    : option Z :=
  let state := if offset then center_row true state else state in
  let ijk_index := zip_with Numpy.floor_divide state unit_maxes in
  Numpy.ravel_multi_index ijk_index (num_points self).

Definition state_to_rectangle (states : list (list Qc)) (offset : bool)
    : option (list Z) :=
  mapM (state_to_rectangle_row offset) states.

Definition rectangle_to_state_row (rectangle : Z) : option (list Qc) :=
  ijk_index ← Numpy.unravel_index rectangle (num_points self);
  Some (Numpy.vadd (Numpy.vmul (Numpy.of_int <$> ijk_index) unit_maxes)
                   offset).

Definition rectangle_to_state (rectangles : list Z)
    : option (list (list Qc)) :=
  mapM rectangle_to_state_row rectangles.

Definition rectangle_corner_index_row (rectangle : Z) : option Z :=
  ijk_index ← Numpy.unravel_index rectangle (num_points self);
  Numpy.ravel_multi_index ijk_index num_vertices.

Definition rectangle_corner_index (rectangles : list Z) : option (list Z) :=
  mapM rectangle_corner_index_row rectangles.

End GridWorld.

(** ** The library objects the module builds on *)

Module Sklearn.

(** [sklearn.utils.extmath.cartesian]: the first array varies slowest. *)
Fixpoint cartesian (arrays : list (list Qc)) : list (list Qc) :=
match arrays with
| [] => [[]]
| a :: rest => x ← a; r ← cartesian rest; [x :: r]
end.

End Sklearn.

Module Scipy.

(** What the module reads of a [scipy.spatial.Delaunay] object: the points
  it was built from, the simplices as rows of point numbers, and point
  location, which answers [-1] for a point that no simplex contains. *)
Record Delaunay := {
points : list (list Qc);
simplices : list (list Z);
find_simplex : list Qc → Z
}.

Definition nsimplex (t : Delaunay) : Z := Z.of_nat (length (simplices t)).

(** [scipy.sparse.coo_matrix((data, (row, col)), shape=...)]. *)
Record coo_matrix := {
data : list Qc;
row : list Z;
col : list Z;
shape : Z * Z
}.

(** The constructor checks the three arrays against each other and the
  indices against the shape. *)
Definition coo_matrix_init (dat : list Qc) (rows cols : list Z)
  (shp : Z * Z) : option coo_matrix :=
if decide (length rows = length dat ∧ length cols = length dat ∧
           Forall (λ r, 0 ≤ r < shp.1) rows ∧
           Forall (λ c, 0 ≤ c < shp.2) cols)
then Some {| data := dat; row := rows; col := cols; shape := shp |}
else None.

(** Entry [i] of the product with a dense vector: duplicate entries add. *)
Fixpoint dot_row (dat : list Qc) (rows cols : list Z) (v : list Qc) (i : Z)
  : Qc :=
match dat, rows, cols with
| x :: dat', r :: rows', c :: cols' =>
    let rest := dot_row dat' rows' cols' v i in
    if decide (r = i)
    then (x * default 0%Qc (v !! Z.to_nat c) + rest)%Qc
    else rest
| _, _, _ => 0%Qc
end.

(** [B.dot(v)]. *)
Definition dot (B : coo_matrix) (v : list Qc) : option (list Qc) :=
if decide (Z.of_nat (length v) = (shape B).2)
then Some (dot_row (data B) (row B) (col B) v
             <$> Numpy.arange (Z.to_nat (shape B).1))
else None.

End Scipy.

(** ** PiecewiseConstant *)

Module PiecewiseConstant.
Section PiecewiseConstant.
Context (self : GridWorld).

Definition evaluate (points : list (list Qc)) : option (list Qc) :=
  nodes ← state_to_index self points;
  values ← vertex_values self;
  Numpy.getitems values nodes.

Definition evaluate_constraint (points : list (list Qc))
    : option Scipy.coo_matrix :=
  let npoints := length points in
  let weights := replicate npoints 1%Qc in
  let rows := Numpy.arange npoints in
  cols ← state_to_index self points;
  Scipy.coo_matrix_init weights rows cols (Z.of_nat npoints, nindex self).

Definition gradient (points : list (list Qc)) : list (list Qc) :=
  Numpy.zeros (length points) (Z.to_nat (nindex self)).

End PiecewiseConstant.
End PiecewiseConstant.

(** ** Triangulation *)

(** The object after [__init__]: the [GridWorld] part, the triangulation of
    one hyperrectangle, its simplices in grid indices, one hyperplane matrix
    per unit simplex, and the [project] flag. *)
Record Triangulation := {
  grid :> GridWorld;
  triangulation : Scipy.Delaunay;
  unit_simplices : list (list Z);
  nsimplex : Z;
  hyperplanes : list (list (list Qc));
  project : bool
}.

Section Construction.
(** [scipy.spatial.Delaunay] and [np.linalg.inv] are library code; both
    can raise. *)
Context (spatial_Delaunay : list (list Qc) → option Scipy.Delaunay).
Context (linalg_inv : list (list Qc) → option (list (list Qc))).

(** [new_simplices[simplices == i] = new_index] for every point number
    [i]; an entry that is no point number would stay uninitialised, which
    is modelled as a failure. *)
Definition _triangulation_simplex_indices (g : GridWorld)
    (t : Scipy.Delaunay) : option (list (list Z)) :=
  index_mapping ←
    state_to_index g ((λ p, Numpy.vadd p (offset g)) <$> Scipy.points t);
  mapM (mapM (λ i, if decide (0 ≤ i) then index_mapping !! Z.to_nat i
                   else None))
       (Scipy.simplices t).

(** [simplex_points[1:] - simplex_points[:1]]. *)
Definition edges (simplex_points : list (list Qc)) : list (list Qc) :=
  match simplex_points with
  | [] => []
  | origin :: rest => (λ p, Numpy.vsub p origin) <$> rest
  end.

(** The body of the loop of [_update_hyperplanes]. *)
Definition hyperplane_of (g : GridWorld) (simplex : list Z)
    : option (list (list Qc)) :=
  simplex_points ← index_to_state g simplex;
  linalg_inv (edges simplex_points).

Definition _update_hyperplanes (g : GridWorld) (unit : list (list Z))
    : option (list (list (list Qc))) :=
  mapM (hyperplane_of g) unit.

Definition Triangulation_init (lims : list (Qc * Qc)) (num : Z + list Z)
    (values : option (list Qc)) (proj : bool) : option Triangulation :=
  let g := GridWorld_init lims num values in
  let hyperrectangle_corners :=
    Sklearn.cartesian (Numpy.diag (unit_maxes g)) in
  t ← spatial_Delaunay hyperrectangle_corners;
  unit ← _triangulation_simplex_indices g t;
  planes ← _update_hyperplanes g unit;
  Some {| grid := g;
          triangulation := t;
          unit_simplices := unit;
          nsimplex := Scipy.nsimplex t * nrectangles g;
          hyperplanes := planes;
          project := proj |}.
End Construction.

Section Triangulation.
Context (self : Triangulation).

(** Simplices per hyperrectangle, [self.triangulation.nsimplex]. *)
Definition nsimplex_per_cell : Z := Scipy.nsimplex (triangulation self).

Definition find_simplex_row (point : list Qc) : option Z :=
  let point := center_row self true point in
  let unit_coordinates := zip_with Numpy.remainder point (unit_maxes self) in
  let simplex_id := Scipy.find_simplex (triangulation self) unit_coordinates in
  rectangle ← state_to_rectangle_row self false point;
  Some (simplex_id + rectangle * nsimplex_per_cell).

Definition find_simplex (points : list (list Qc)) : option (list Z) :=
  mapM find_simplex_row points.

Definition simplices_row (index : Z) : option (list Z) :=
  let unit_index := index `mod` nsimplex_per_cell in
  simplex ← Numpy.getitem (unit_simplices self) unit_index;
  let rectangle := index `div` nsimplex_per_cell in
  corner_index ← rectangle_corner_index_row self rectangle;
  Some ((λ v, v + corner_index) <$> (simplex : list Z)).

Definition simplices (indices : list Z) : option (list (list Z)) :=
  mapM simplices_row indices.

(** The point that is blended: clipped to the limits under [project]. *)
Definition projected (point : list Qc) : list Qc :=
  if project self then clip_to_limits self point else point.

(** One row of [_get_weights]: the weights and the simplex of a point. *)
Definition _get_weights_row (point : list Qc)
    : option (list Qc * list Z) :=
  simplex_id ← find_simplex_row point;
  let point := projected point in
  simplex ← simplices_row simplex_id;
  origin_index ← head simplex;
  origin ← index_to_state_row self origin_index;
  let simplex_id := simplex_id `mod` nsimplex_per_cell in
  hyperplane ← Numpy.getitem (hyperplanes self) simplex_id;
  let rest :=
    Numpy.vecmat (ndim self) (Numpy.vsub point origin) hyperplane in
  Some ((1 - Numpy.vsum rest)%Qc :: rest, simplex).

Definition _get_weights (points : list (list Qc))
    : option (list (list Qc) * list (list Z)) :=
  rows ← mapM _get_weights_row points;
  Some (rows.*1, rows.*2).

(** [self.vertex_values[simplices]]. *)
Definition values_at (simplices : list (list Z))
    : option (list (list Qc)) :=
  values ← vertex_values self;
  mapM (Numpy.getitems values) simplices.

Definition evaluate (points : list (list Qc)) : option (list Qc) :=
  '(weights, simplices) ← _get_weights points;
  values ← values_at simplices;
  Some (zip_with Numpy.dot weights values).

Definition evaluate_constraint (points : list (list Qc))
    : option Scipy.coo_matrix :=
  '(weights, simplices) ← _get_weights points;
  let nsimp := S (ndim self) in
  let npoints := length simplices in
  let rows := Numpy.repeat (Numpy.arange (length points)) nsimp in
  let cols := concat simplices in
  Scipy.coo_matrix_init (concat weights) rows cols
                        (Z.of_nat npoints, nindex self).

(** One row of [_get_weights_gradient]: an [ndim] by [ndim + 1] block. *)
Definition _get_weights_gradient_row (point : list Qc)
    : option (list (list Qc) * list Z) :=
  simplex_id ← find_simplex_row point;
  simplex ← simplices_row simplex_id;
  let simplex_id := simplex_id `mod` nsimplex_per_cell in
  hyperplane ← Numpy.getitem (hyperplanes self) simplex_id;
  Some ((λ r, (- Numpy.vsum r)%Qc :: r) <$> (hyperplane : list (list Qc)),
        simplex).

Definition _get_weights_gradient (points : list (list Qc))
    : option (list (list (list Qc)) * list (list Z)) :=
  rows ← mapM _get_weights_gradient_row points;
  Some (rows.*1, rows.*2).

Definition gradient (points : list (list Qc)) : option (list (list Qc)) :=
  '(weights, simplices) ← _get_weights_gradient points;
  values ← values_at simplices;
  Some (zip_with Numpy.matvec weights values).

(** The closing [shape=] argument is [(ndim * npoints, nindex)]. *)
Definition gradient_constraint (points : list (list Qc))
    : option Scipy.coo_matrix :=
  '(weights, simplices) ← _get_weights_gradient points;
  let nsimp := S (ndim self) in
  let npoints := length simplices in
  let rows :=
    Numpy.repeat (Numpy.arange (npoints * ndim self)) nsimp in
  let cols :=
    concat ((λ s, concat (replicate (ndim self) s)) <$> simplices) in
  Scipy.coo_matrix_init (concat (concat weights)) rows cols
    (Z.of_nat (ndim self * npoints), nindex self).

End Triangulation.


(** * [GridWorld] in IEEE binary64

    The same source lines as in section [GridWorld] above, evaluated over
    Rocq's primitive floats, which are the binary64 numbers of
    [np.float].  Only finite numbers are modelled: [None] stands for an
    exception, as above, or for an operand that is not finite. *)

Module Binary64.
Import Stdlib.Floats.Floats.

(** [np.finfo(np.float64).eps] *)
Definition eps : float := 0x1p-52%float.

Definition maximum (x y : float) : float := if (x <=? y)%float then y else x.
Definition minimum (x y : float) : float := if (x <=? y)%float then x else y.
Definition clip (x lo hi : float) : float := minimum (maximum x lo) hi.

(** An integer of [num_points] as a float, as numpy's broadcasting casts it. *)
Definition of_int (n : Z) : float :=
if (n <? 0)%Z then (- PrimFloat.of_uint63 (Uint63.of_Z (- n)))%float
else PrimFloat.of_uint63 (Uint63.of_Z n).

(** The rational number a finite float stands for. *)
Definition exact (x : float) : option Qc :=
match Prim2SF x with
| S754_zero _ => Some 0%Qc
| S754_finite s m e =>
    Some (Q2Qc ((if s then -1 else 1) * inject_Z (Z.pos m) * Qpower 2 e))
| S754_infinity _ | S754_nan => None
end.

(** [np.floor_divide(x, u).astype(np.int)]: numpy floors the exact
    quotient of the two floats (it works from [fmod], which is exact). *)
Definition floor_divide (x u : float) : option Z :=
x' ← exact x;
u' ← exact u;
if decide (u' = 0%Qc) then None else Some (Numpy.floor_divide x' u').

(** [np.rint(x).astype(np.int)]: rounding a float to an integer is exact. *)
Definition rint (x : float) : option Z := Numpy.rint <$> exact x.

Section GridWorld.
Variable limits : list (float * float).
Variable num_points : list Z.

Definition offset : list float := fst <$> limits.

Definition unit_maxes : list float :=
  zip_with (λ lim n, ((lim.2 - lim.1) / of_int n)%float) limits num_points.

Definition offset_limits : list (float * float) :=
  (λ lim, (0%float, (lim.2 - lim.1)%float)) <$> limits.

Definition center_row (clipped : bool) (state : list float) : list float :=
  let centered := zip_with PrimFloat.sub state offset in
  if clipped then
    zip_with (λ x lim, clip x (lim.1 + 2 * eps)%float (lim.2 - 2 * eps)%float)
             centered offset_limits
  else centered.

Definition _center_states (states : list (list float)) (clipped : bool)
    : list (list float) :=
  center_row clipped <$> states.

Definition state_to_rectangle_row (offset : bool) (state : list float)
    : option Z :=
  let state := if offset then center_row true state else state in
  ijk_index ← mapM id (zip_with floor_divide state unit_maxes);
  Numpy.ravel_multi_index ijk_index num_points.

Definition state_to_rectangle (states : list (list float)) (offset : bool)
    : option (list Z) :=
  mapM (state_to_rectangle_row offset) states.

Definition num_vertices : list Z := (λ n, n + 1) <$> num_points.

Definition index_to_state_row (index : Z) : option (list float) :=
  ijk_index ← Numpy.unravel_index index num_vertices;
  Some (zip_with PrimFloat.add
          (zip_with PrimFloat.mul (of_int <$> ijk_index) unit_maxes) offset).

Definition index_to_state (indices : list Z) : option (list (list float)) :=
  mapM index_to_state_row indices.

Definition clip_to_limits (state : list float) : list float :=
  zip_with (λ x lim, clip x lim.1 lim.2) state limits.

Definition state_to_index_row (state : list float) : option Z :=
  let clipped := clip_to_limits state in
  let scaled :=
    zip_with PrimFloat.div (zip_with PrimFloat.sub clipped offset)
             unit_maxes in
  ijk_index ← mapM rint scaled;
  Numpy.ravel_multi_index ijk_index num_vertices.

Definition state_to_index (states : list (list float)) : option (list Z) :=
  mapM state_to_index_row states.

(** [_triangulation_simplex_indices] of [Triangulation], for the points and
    the simplices of the triangulation of one hyperrectangle. *)
Definition _triangulation_simplex_indices (points : list (list float))
    (simplices : list (list Z)) : option (list (list Z)) :=
  index_mapping ←
    state_to_index ((λ p, zip_with PrimFloat.add p offset) <$> points);
  mapM (mapM (λ i, if decide (0 ≤ i) then index_mapping !! Z.to_nat i
                   else None))
       simplices.

End GridWorld.
End Binary64.
(** ** Specification vocabulary *)

(** A multi-index that addresses an array of shape [dims]. *)
Definition in_shape (ijk dims : list Z) : Prop :=
  Forall2 (λ k d, 0 ≤ k < d) ijk dims.

(** The grid invariant: as many cell counts as limits, at least one cell per
    dimension, and limits of positive width. *)
Definition regular_dim (lim : Qc * Qc) (n : Z) : Prop :=
  (lim.1 < lim.2)%Qc ∧ 1 ≤ n.

Definition regular_grid (g : GridWorld) : Prop :=
  Forall2 regular_dim (limits g) (num_points g).

(** The state of the vertex with multi-index [ijk]. *)
Definition vertex_state (g : GridWorld) (ijk : list Z) : list Qc :=
  Numpy.vadd (Numpy.vmul (Numpy.of_int <$> ijk) (unit_maxes g)) (offset g).

(** An [n] by [n] matrix. *)
Definition square (n : nat) (m : list (list Qc)) : Prop :=
  length m = n ∧ Forall (λ r, length r = n) m.

(** [h] is the two-sided inverse of the [n] by [n] matrix [m]. *)
Definition is_inverse (n : nat) (m h : list (list Qc)) : Prop :=
  square n h ∧
  Numpy.matmul n m h = Numpy.identity n ∧
  Numpy.matmul n h m = Numpy.identity n.

(** What [np.linalg.inv] promises when it returns: the argument was square
    and the result is its inverse. *)
Definition inverts (linalg_inv : list (list Qc) → option (list (list Qc)))
    : Prop :=
  ∀ m h, linalg_inv m = Some h →
         square (length m) m ∧ is_inverse (length m) m h.

(** A point of the hyperrectangle that was triangulated. *)
Definition in_cell (g : GridWorld) (q : list Qc) : Prop :=
  Forall2 (λ x u, 0 ≤ x ≤ u)%Qc q (unit_maxes g).

(** What the module relies on from [scipy.spatial.Delaunay] for the
    triangulation of one hyperrectangle: the object keeps the corners it was
    given, every simplex has [ndim + 1] corners, and point location finds a
    simplex for every point of the hyperrectangle. *)
Record delaunay_contract (self : Triangulation) : Prop := {
  keeps_points :
    Scipy.points (triangulation self)
    = Sklearn.cartesian (Numpy.diag (unit_maxes self));
  simplex_width :
    Forall (λ s, length s = S (ndim self))
           (Scipy.simplices (triangulation self));
  covers_cell :
    ∀ q, in_cell self q →
         0 ≤ Scipy.find_simplex (triangulation self) q
           < nsimplex_per_cell self
}.

(** Every extent is wider than the margin of [_center_states]. *)
Definition wider_than_margin (g : GridWorld) : Prop :=
  Forall (λ lim, (2 * Numpy.eps < lim.2 - lim.1)%Qc) (limits g).

(** The vertex count fits numpy's int64: [nindex] does not wrap and
    [np.ravel_multi_index] and [np.unravel_index] accept the shape. *)
Definition fits_int64 (g : GridWorld) : Prop := nindex g ≤ 2 ^ 63 - 1.

(** A vertex index of the hyperrectangle at the grid origin: every
    coordinate of its multi-index is 0 or 1. *)
Definition corner_index (g : GridWorld) (v : Z) : Prop :=
  ∃ e, Forall2 (λ k n, 0 ≤ k ≤ 1 ∧ 1 ≤ n) e (num_points g) ∧
       v = Numpy.ravel (num_vertices g) e.

(** What [__init__] sets up for [simplices]: the simplex count, one unit
    simplex per simplex of the triangulated hyperrectangle, and in every
    unit simplex vertex indices of the hyperrectangle at the grid origin. *)
Definition built_on_unit_cell (self : Triangulation) : Prop :=
  nsimplex self = nsimplex_per_cell self * nrectangles self ∧
  Z.of_nat (length (unit_simplices self)) = nsimplex_per_cell self ∧
  Forall (Forall (corner_index self)) (unit_simplices self).

(** The entries of [values] at the vertex indices [simplex]. *)
Definition values_of (values : list Qc) (simplex : list Z) : list Qc :=
  (λ v, default 0%Qc (values !! Z.to_nat v)) <$> simplex.

(** The rows of one block of gradient weights, each with the block's
    simplex. *)
Definition block_rows (row : list (list Qc) * list Z)
    : list (list Qc * list Z) :=
  (λ w, (w, row.2)) <$> row.1.

(** [p] lies strictly inside the simplex with the given vertices: it is a
    combination of them with positive coefficients that sum to one. *)
Definition strictly_inside (n : nat) (p : list Qc) (vertices : list (list Qc))
    : Prop :=
  ∃ coefficients,
    length coefficients = length vertices ∧
    Forall (λ c, 0 < c)%Qc coefficients ∧
    Numpy.vsum coefficients = 1%Qc ∧
    p = Numpy.vecmat n coefficients vertices.

(** [values] holds the field [f] at the states of all vertices, in index
    order. *)
Definition sampled_at_vertices (g : GridWorld) (f : list Qc → Qc)
    (values : list Qc) : Prop :=
  ∃ states,
    index_to_state g (Numpy.arange (Z.to_nat (nindex g))) = Some states ∧
    values = f <$> states.

(** A point strictly inside the limits. *)
Definition interior (g : GridWorld) (p : list Qc) : Prop :=
  Forall2 (λ x lim, lim.1 < x ∧ x < lim.2)%Qc p (limits g).

(** ** A two-dimensional instance

    The grid over [0,1] x [0,1] with two cells per axis (nine vertices) and
    the triangulation of one of its cells into two triangles, as scipy cuts
    it.  It instantiates the library functions in the examples. *)

Module Example.

Definition frac (n : Z) (d : positive) : Qc := Q2Qc (n # d).

(** The inverse of a two by two matrix; it raises on any other argument and
    on a singular matrix, as [np.linalg.inv] does. *)
Definition inv2 (m : list (list Qc)) : option (list (list Qc)) :=
  match m with
  | [[a; b]; [c; d]] =>
      let det := (a * d - b * c)%Qc in
      if decide (det = 0%Qc) then None
      else Some [[d / det; - b / det]; [- c / det; a / det]]%Qc
  | _ => None
  end.

(** Point location in the rectangle with corners [(0,0)] and [(w,h)], cut
    along the diagonal from [(w,0)] to [(0,h)]: simplex 0 is the triangle at
    the corner [(w,h)], simplex 1 the triangle at the origin. *)
Definition locate (w h : Qc) (p : list Qc) : Z :=
  match p with
  | [x; y] =>
      if decide (0 ≤ x ∧ x ≤ w ∧ 0 ≤ y ∧ y ≤ h)%Qc
      then if decide (w * h ≤ x * h + y * w)%Qc then 0 else 1
      else -1
  | _ => -1
  end.

(** The triangulation of the four corners of a rectangle, given in the
    order in which [cartesian(np.diag([w, h]))] lists them, [(w,0)], [(w,h)],
    [(0,0)], [(0,h)], with the simplices scipy returns for them; any other
    argument raises. *)
Definition delaunay2 (pts : list (list Qc)) : option Scipy.Delaunay :=
  match pts with
  | [[w; z1]; [w'; h]; [z2; z3]; [z4; h']] =>
      if decide (w = w' ∧ h = h' ∧ z1 = 0 ∧ z2 = 0 ∧ z3 = 0 ∧ z4 = 0 ∧
                 0 < w ∧ 0 < h)%Qc
      then Some {| Scipy.points := pts;
                   Scipy.simplices := [[1; 3; 0]; [0; 3; 2]];
                   Scipy.find_simplex := locate w h |}
      else None
  | _ => None
  end.

Definition unit_square : list (Qc * Qc) := [(0, 1); (0, 1)]%Qc.

(** The values of [x + 2 y] at the nine vertices, in index order. *)
Definition plane_values : list Qc :=
  (λ n, frac n 2) <$> [0; 2; 4; 1; 3; 5; 2; 4; 6].

(** Values that are not affine: 1 at the vertex (1/2, 1/2), 0 elsewhere. *)
Definition bump_values : list Qc :=
  [0; 0; 0; 0; 1; 0; 0; 0; 0]%Qc.

Definition construct (values : list Qc) (project : bool)
    : option Triangulation :=
  Triangulation_init delaunay2 inv2 unit_square (inl 2) (Some values) project.

Definition fallback : Triangulation :=
  {| grid := GridWorld_init [] (inr []) None;
     triangulation := {| Scipy.points := []; Scipy.simplices := [];
                         Scipy.find_simplex := λ _, -1 |};
     unit_simplices := [];
     nsimplex := 0;
     hyperplanes := [];
     project := false |}.

Definition plane : Triangulation := default fallback (construct plane_values false).
Definition plane_projected : Triangulation :=
  default fallback (construct plane_values true).
Definition bump : Triangulation := default fallback (construct bump_values false).

(** A grid whose only extent is one machine epsilon wide. *)
Definition tiny : GridWorld :=
  GridWorld_init [(0%Qc, Numpy.eps)] (inl 1) None.

(** Twenty unit cells on the interval from -10 to 10, over the rationals and
    over binary64. *)
Definition wide : GridWorld :=
  GridWorld_init [(Numpy.of_int (-10), Numpy.of_int 10)] (inl 20) None.

Definition wide_limits : list (PrimFloat.float * PrimFloat.float) :=
  [(Binary64.of_int (-10), Binary64.of_int 10)].

(** Four unit cells per axis whose limits lie above 2^53, where binary64
    represents the even integers only: over binary64, and the rational grid
    with the same limits. *)
Definition far_limits : list (PrimFloat.float * PrimFloat.float) :=
  [(Binary64.of_int (2 ^ 53), Binary64.of_int (2 ^ 53 + 4))].

Definition far_square_limits : list (PrimFloat.float * PrimFloat.float) :=
  [(Binary64.of_int (2 ^ 53 + 2), Binary64.of_int (2 ^ 53 + 6));
   (Binary64.of_int (2 ^ 53 + 2), Binary64.of_int (2 ^ 53 + 6))].

(** The corners of one cell of that grid, [cartesian(np.diag([1, 1]))], and
    the simplices scipy returns for them. *)
Definition unit_corners : list (list PrimFloat.float) :=
  (λ p : list Z, Binary64.of_int <$> p) <$> [[1; 0]; [1; 1]; [0; 0]; [0; 1]].

Definition unit_cut : list (list Z) := [[1; 3; 0]; [0; 3; 2]].

(** The object that [__init__] builds on that grid in binary64, as far as
    [simplices] reads it: the unit simplices are the ones that
    [_triangulation_simplex_indices] computes over binary64. *)
Definition far_square : Triangulation :=
  let g := GridWorld_init
             [(Numpy.of_int (2 ^ 53 + 2), Numpy.of_int (2 ^ 53 + 6));
              (Numpy.of_int (2 ^ 53 + 2), Numpy.of_int (2 ^ 53 + 6))]
             (inl 4) None in
  {| grid := g;
     triangulation := {| Scipy.points := [[1; 0]; [1; 1]; [0; 0]; [0; 1]]%Qc;
                         Scipy.simplices := unit_cut;
                         Scipy.find_simplex := locate 1 1 |};
     unit_simplices :=
       default [] (Binary64._triangulation_simplex_indices
                     far_square_limits [4; 4] unit_corners unit_cut);
     nsimplex := 2 * nrectangles g;
     hyperplanes := [];
     project := false |}.

End Example.

(** ** Facts about the numpy primitives *)

(** Inequalities between canonical rationals are decided over [Q]. *)
Ltac qc_to_q :=
  unfold Qcle, Qclt, Qcminus, Qcdiv, Numpy.of_int in *;
  repeat match goal with
  | H : @eq Qc _ _ |- _ => apply (f_equal this) in H
  | |- @eq Qc _ _ => apply Qc_is_canon
  end;
  cbn [this Qcplus Qcmult Qcopp Qcinv Q2Qc Qc_of_Z] in *;
  rewrite ?Qred_correct in *;
  rewrite ?inject_Z_plus, ?inject_Z_mult, ?inject_Z_opp in *;
  change (inject_Z 0) with 0%Q in *;
  change (inject_Z 1) with 1%Q in *.

Ltac qc_neg :=
  repeat match goal with
  | H : ¬ (_ ≤ _)%Qc |- _ => apply Qcnot_le_lt in H
  | H : ¬ (_ < _)%Qc |- _ => apply Qcnot_lt_le in H
  end.

Ltac qc_lra := qc_neg; qc_to_q; lra.
Ltac qc_nra := qc_neg; qc_to_q; nra.

Section NumpyFacts.
Import Numpy.
Local Open Scope Qc_scope.

Lemma of_int_0 : of_int 0 = 0.
Proof. apply Z2Qc_inj_0. Qed.

Lemma of_int_1 : of_int 1 = 1.
Proof. apply Z2Qc_inj_1. Qed.

Lemma of_int_add n m : of_int (n + m) = of_int n + of_int m.
Proof. apply Z2Qc_inj_add. Qed.

Lemma of_int_le n m : (n ≤ m)%Z ↔ of_int n ≤ of_int m.
Proof. apply Z2Qc_inj_le. Qed.

Lemma of_int_lt n m : (n < m)%Z ↔ of_int n < of_int m.
Proof. apply Z2Qc_inj_lt. Qed.

Lemma of_int_mono n m : (n ≤ m)%Z → of_int n ≤ of_int m.
Proof. apply (proj1 (of_int_le n m)). Qed.

Lemma of_int_nonneg n : (0 ≤ n)%Z → 0 ≤ of_int n.
Proof. rewrite <- of_int_0. apply of_int_mono. Qed.

Lemma of_int_pos n : (0 < n)%Z → 0 < of_int n.
Proof. rewrite <- of_int_0. apply (proj1 (of_int_lt 0 n)). Qed.

Lemma of_int_nonzero n : (0 < n)%Z → of_int n ≠ 0.
Proof. intros H%of_int_pos E. rewrite E in H. by apply Qclt_not_eq in H. Qed.

Lemma floor_spec x : of_int (floor x) ≤ x ∧ x < of_int (floor x) + 1.
Proof.
  unfold floor. pose proof (Qfloor_le x). pose proof (Qlt_floor x).
  split; qc_lra.
Qed.

Lemma floor_unique x k : of_int k ≤ x → x < of_int k + 1 → floor x = k.
Proof.
  intros H1 H2. destruct (floor_spec x) as [H3 H4].
  assert (of_int k < of_int (floor x + 1)) as Ha
    by (rewrite of_int_add, of_int_1; eapply Qcle_lt_trans; eauto).
  assert (of_int (floor x) < of_int (k + 1)) as Hb
    by (rewrite of_int_add, of_int_1; eapply Qcle_lt_trans; eauto).
  apply of_int_lt in Ha, Hb. lia.
Qed.

Lemma floor_of_int k : floor (of_int k) = k.
Proof. apply floor_unique; qc_lra. Qed.

Lemma rint_of_int k : rint (of_int k) = k.
Proof.
  unfold rint. rewrite floor_of_int.
  destruct (decide _) as [|[]]; [done|]. qc_lra.
Qed.

Lemma clip_inside x lo hi : lo ≤ x → x ≤ hi → clip x lo hi = x.
Proof.
  intros Hlo Hhi. unfold clip, maximum, minimum.
  repeat destruct (decide _); qc_lra.
Qed.

(** The three cases of [clip] when the bounds are in order. *)
Lemma clip_cases x lo hi :
  lo ≤ hi →
  (x ≤ lo ∧ clip x lo hi = lo) ∨ (lo ≤ x ≤ hi ∧ clip x lo hi = x) ∨
  (hi ≤ x ∧ clip x lo hi = hi).
Proof.
  intros Hle. unfold clip, maximum, minimum.
  destruct (decide (x ≤ lo)) as [H1|H1].
  - left. split; [done|]. by destruct (decide _).
  - right. destruct (decide (x ≤ hi)) as [H2|H2].
    + left. split; [|done]. split; [qc_lra|done].
    + right. split; [qc_lra|done].
Qed.

Lemma clip_bounds x lo hi : lo ≤ hi → lo ≤ clip x lo hi ≤ hi.
Proof.
  intros Hle.
  destruct (clip_cases x lo hi Hle) as [[? ->]|[[[? ?] ->]|[? ->]]];
    split; done.
Qed.

Lemma floor_divide_bounds x u n :
  0 < u → 0 ≤ x → x < of_int n * u → (0 ≤ floor_divide x u < n)%Z.
Proof.
  intros Hu Hx Hn. unfold floor_divide.
  destruct (floor_spec (x / u)) as [H1 H2].
  remember (x / u) as q eqn:Hq. remember (floor q) as f eqn:Hf.
  assert (0 ≤ q) as H3.
  { subst q. apply Qcmult_nonneg_nonneg; [done|].
    by apply Qclt_le_weak, Qcinv_pos. }
  assert (q < of_int n) as H4.
  { apply (Qcmult_lt_mono_pos_r _ _ u Hu).
    replace (q * u) with x; [done|].
    subst q. field. intros ->. by apply Qclt_not_eq in Hu. }
  clear Hq Hf.
  assert (of_int 0 < of_int (f + 1)) as Ha
    by (rewrite of_int_add, of_int_1, of_int_0; qc_lra).
  assert (of_int f < of_int n) as Hb by (eapply Qcle_lt_trans; eauto).
  apply of_int_lt in Ha, Hb. lia.
Qed.

Lemma remainder_bounds x u : 0 < u → 0 ≤ remainder x u ∧ remainder x u < u.
Proof.
  intros Hu. unfold remainder, floor_divide.
  destruct (floor_spec (x / u)) as [H1 H2].
  assert (u ≠ 0) as Hu0 by (intros ->; by apply Qclt_not_eq in Hu).
  apply (Qcmult_le_mono_pos_r _ _ u Hu) in H1.
  apply (Qcmult_lt_mono_pos_r _ _ u Hu) in H2.
  replace (x / u * u) with x in H1, H2 by (by field).
  remember (of_int (floor (x / u))) as f eqn:Hf. clear Hf.
  split; qc_lra.
Qed.

End NumpyFacts.

(** ** Flat indices and multi-indices *)

Section IndexFacts.
Import Numpy.

Lemma prod_pos dims : Forall (λ d, 0 < d) dims → 0 < prod dims.
Proof. induction 1; simpl; lia. Qed.

Lemma in_shape_pos ijk dims : in_shape ijk dims → Forall (λ d, 0 < d) dims.
Proof. induction 1; constructor; [lia|done]. Qed.

Lemma ravel_bounds ijk dims :
  in_shape ijk dims → 0 ≤ ravel dims ijk < prod dims.
Proof.
  induction 1 as [|k d ks ds Hk Hks IH]; simpl; [lia|].
  pose proof (prod_pos ds (in_shape_pos _ _ Hks)). nia.
Qed.

Lemma unravel_ravel ijk dims :
  in_shape ijk dims → unravel dims (ravel dims ijk) = ijk.
Proof.
  induction 1 as [|k d ks ds Hk Hks IH]; simpl; [done|].
  pose proof (ravel_bounds _ _ Hks) as Hr.
  f_equal.
  - symmetry. apply (Z.div_unique_pos _ _ _ (ravel ds ks)); lia.
  - rewrite <- IH at 2. f_equal.
    symmetry. apply (Z.mod_unique_pos _ _ k); lia.
Qed.

Lemma unravel_bounds dims i :
  Forall (λ d, 0 < d) dims → 0 ≤ i < prod dims → in_shape (unravel dims i) dims.
Proof.
  intros Hpos. revert i.
  induction Hpos as [|d ds Hd Hds IH]; intros i Hi; simpl in *.
  { constructor. }
  pose proof (prod_pos ds Hds) as HP.
  constructor.
  - split; [apply Z.div_pos; lia|].
    apply Z.div_lt_upper_bound; lia.
  - apply IH. apply Z.mod_pos_bound. lia.
Qed.

Lemma ravel_unravel dims i :
  Forall (λ d, 0 < d) dims → 0 ≤ i < prod dims → ravel dims (unravel dims i) = i.
Proof.
  intros Hpos. revert i.
  induction Hpos as [|d ds Hd Hds IH]; intros i Hi; simpl in *; [lia|].
  pose proof (prod_pos ds Hds) as HP.
  rewrite IH by (apply Z.mod_pos_bound; lia).
  rewrite (Z.div_mod i (prod ds)) at 3 by lia. lia.
Qed.

Lemma ravel_multi_index_Some ijk dims :
  in_shape ijk dims → ravel_multi_index ijk dims = Some (ravel dims ijk).
Proof. intros H. unfold ravel_multi_index. by rewrite decide_True. Qed.

Lemma ravel_multi_index_inv ijk dims i :
  ravel_multi_index ijk dims = Some i → in_shape ijk dims ∧ i = ravel dims ijk.
Proof.
  unfold ravel_multi_index. destruct (decide _); [|done].
  intros [= <-]. done.
Qed.

Lemma unravel_index_Some i dims :
  0 ≤ i < prod dims → unravel_index i dims = Some (unravel dims i).
Proof. intros H. unfold unravel_index. by rewrite decide_True. Qed.

Lemma unravel_index_inv i dims ijk :
  unravel_index i dims = Some ijk → 0 ≤ i < prod dims ∧ ijk = unravel dims i.
Proof.
  unfold unravel_index. destruct (decide _); [|done].
  intros [= <-]. done.
Qed.

(** A multi-index of the cell lattice also addresses the vertex lattice. *)
Lemma in_shape_succ ijk dims :
  in_shape ijk dims → in_shape ijk ((λ n, n + 1) <$> dims).
Proof. induction 1; constructor; [lia|done]. Qed.

End IndexFacts.

(** ** Regular grids *)

Section OneDimension.
Import Numpy.
Local Open Scope Qc_scope.
Context (lo hi : Qc) (n : Z).
Context (Hreg : regular_dim (lo, hi) n).

(** The cell width [unit_maxes[d]]. *)
Let u : Qc := (hi - lo) / of_int n.

Lemma cells_pos : 0 < of_int n.
Proof. destruct Hreg. apply of_int_pos. lia. Qed.

Lemma cells_nonzero : of_int n ≠ 0.
Proof. destruct Hreg. apply of_int_nonzero. lia. Qed.

Lemma unit_pos : 0 < u.
Proof.
  destruct Hreg as [Hlim _]. simpl in Hlim. unfold u.
  apply Qcmult_pos_pos; [qc_lra|]. apply Qcinv_pos, cells_pos.
Qed.

Lemma unit_nonzero : u ≠ 0.
Proof. pose proof unit_pos as H. intros E. rewrite E in H. qc_lra. Qed.

Lemma unit_cells : of_int n * u = hi - lo.
Proof. unfold u. field. apply cells_nonzero. Qed.

(** A vertex coordinate lies within the limits. *)
Lemma vertex_within k :
  (0 ≤ k ≤ n)%Z → lo ≤ of_int k * u + lo ∧ of_int k * u + lo ≤ hi.
Proof.
  intros [Hk0 Hkn]. pose proof unit_pos as Hu.
  assert (0 ≤ of_int k * u) as H1.
  { apply Qcmult_nonneg_nonneg; [|qc_lra].
    apply of_int_nonneg. lia. }
  assert (of_int k * u ≤ of_int n * u) as H2.
  { apply Qcmult_le_mono_nonneg_r; [qc_lra|]. apply of_int_mono. lia. }
  rewrite unit_cells in H2. split; qc_lra.
Qed.

(** One coordinate of [state_to_index] after [index_to_state]. *)
Lemma vertex_roundtrip k :
  (0 ≤ k ≤ n)%Z →
  rint ((clip (of_int k * u + lo) lo hi - lo) / u) = k.
Proof.
  intros Hk. destruct (vertex_within k Hk) as [H1 H2].
  rewrite clip_inside by done.
  replace ((of_int k * u + lo - lo) / u) with (of_int k)
    by (field; apply unit_nonzero).
  apply rint_of_int.
Qed.

End OneDimension.

(** ** Vertices and their states *)

Section VertexStates.
Import Numpy.

Lemma num_vertices_pos g : regular_grid g → Forall (λ d, 0 < d) (num_vertices g).
Proof.
  unfold regular_grid, num_vertices. intros H.
  induction H as [|lim n lims nums [_ Hn] _ IH]; simpl; constructor;
    [lia|done].
Qed.

Lemma num_points_pos g : regular_grid g → Forall (λ d, 0 < d) (num_points g).
Proof.
  unfold regular_grid. intros H.
  induction H as [|lim n lims nums [_ Hn] _ IH]; constructor; [lia|done].
Qed.

Lemma index_to_state_row_Some g v :
  regular_grid g → 0 ≤ v < nindex g →
  index_to_state_row g v = Some (vertex_state g (unravel (num_vertices g) v)).
Proof.
  intros Hg Hv. unfold index_to_state_row.
  by rewrite unravel_index_Some.
Qed.

(** [state_to_index] reads the multi-index back from a vertex state. *)
Lemma state_to_index_vertex g ijk :
  regular_grid g → in_shape ijk (num_vertices g) →
  state_to_index_row g (vertex_state g ijk)
  = Some (ravel (num_vertices g) ijk).
Proof.
  intros Hg Hijk. unfold state_to_index_row.
  rewrite <- (ravel_multi_index_Some _ _ Hijk). f_equal.
  unfold clip_to_limits, vertex_state, unit_maxes, offset, num_vertices,
    regular_grid in *.
  destruct g as [lims nums vals]; simpl in *. clear vals.
  revert ijk Hijk.
  induction Hg as [|[lo hi] n lims nums Hn _ IH]; intros ijk Hijk;
    inversion Hijk as [|k ? ks ? Hk Hks]; subst; simpl; [reflexivity|].
  f_equal; [|by apply IH].
  apply (vertex_roundtrip lo hi n Hn). lia.
Qed.

End VertexStates.


(** ** Row vectors and matrices *)

Section LinearAlgebra.
Import Numpy.
Local Open Scope Qc_scope.
Implicit Types (v w a r : list Qc) (m : list (list Qc)) (n k : nat).

Lemma vsum_cons x v : vsum (x :: v) = x + vsum v.
Proof. done. Qed.

Lemma dot_cons x v y w : dot (x :: v) (y :: w) = x * y + dot v w.
Proof. done. Qed.

Lemma dot_nil_r v : dot v [] = 0.
Proof. by destruct v. Qed.

Lemma dot_comm v w : dot v w = dot w v.
Proof.
  revert w. induction v as [|x v IH]; intros [|y w]; try done.
  rewrite !dot_cons, IH. ring.
Qed.

Lemma dot_vadd_l v w a :
  length v = length w → dot (vadd v w) a = dot v a + dot w a.
Proof.
  revert w a. induction v as [|x v IH]; intros [|y w] [|z a] Hlen;
    simplify_eq/=; try (unfold dot; simpl; ring).
  unfold vadd in *. simpl. rewrite !dot_cons, IH by done. ring.
Qed.

Lemma dot_vsub_l v w a :
  length v = length w → dot (vsub v w) a = dot v a - dot w a.
Proof.
  revert w a. induction v as [|x v IH]; intros [|y w] [|z a] Hlen;
    simplify_eq/=; try (unfold dot; simpl; ring).
  unfold vsub in *. simpl. rewrite !dot_cons, IH by done. ring.
Qed.

Lemma dot_vscale_l x v a : dot (vscale x v) a = x * dot v a.
Proof.
  revert a. induction v as [|y v IH]; intros [|z a];
    try (unfold dot; simpl; ring).
  unfold vscale in *. simpl. rewrite !dot_cons, IH. ring.
Qed.

Lemma dot_zero_l n a : dot (replicate n 0) a = 0.
Proof.
  revert a. induction n as [|n IH]; intros [|z a]; try done.
  simpl. rewrite dot_cons, IH. ring.
Qed.

(** The entries of a row vector times a matrix. *)
Lemma lookup_vecmat n v m k :
  (k < n)%nat → vecmat n v m !! k = Some (dot v (column m k)).
Proof.
  intros Hk. unfold vecmat. rewrite list_lookup_fmap, lookup_seq_lt by done.
  done.
Qed.

Lemma length_vecmat n v m : length (vecmat n v m) = n.
Proof. unfold vecmat. by rewrite length_fmap, length_seq. Qed.

Lemma vecmat_nil_l n m : vecmat n [] m = replicate n 0.
Proof.
  apply list_eq_same_length with n;
    [apply length_replicate|apply length_vecmat|].
  intros k x y Hk. rewrite lookup_vecmat, lookup_replicate_2 by done.
  by intros [= <-] [= <-].
Qed.

Lemma vecmat_nil_r n v : vecmat n v [] = replicate n 0.
Proof.
  apply list_eq_same_length with n;
    [apply length_replicate|apply length_vecmat|].
  intros k x y Hk. rewrite lookup_vecmat, lookup_replicate_2 by done.
  simpl. rewrite dot_nil_r. by intros [= <-] [= <-].
Qed.

Lemma vecmat_cons n x v r m :
  length r = n →
  vecmat n (x :: v) (r :: m) = vadd (vscale x r) (vecmat n v m).
Proof.
  intros Hr.
  apply list_eq_same_length with n; [|apply length_vecmat|].
  { unfold vadd, vscale.
    rewrite length_zip_with, length_fmap, length_vecmat. lia. }
  intros k y z Hk. rewrite lookup_vecmat by done.
  unfold vadd, vscale. rewrite lookup_zip_with, list_lookup_fmap.
  rewrite lookup_vecmat by done.
  destruct (lookup_lt_is_Some_2 r k) as [rk Hrk]; [lia|].
  simpl. rewrite Hrk. simpl. rewrite dot_cons.
  by intros [= <-] [= <-].
Qed.

Lemma vecmat_zero n m : vecmat n (replicate (length m) 0) m = replicate n 0.
Proof.
  apply list_eq_same_length with n;
    [apply length_replicate|apply length_vecmat|].
  intros k x y Hk. rewrite lookup_vecmat, lookup_replicate_2 by done.
  rewrite dot_zero_l. by intros [= <-] [= <-].
Qed.


Lemma vecmat_vadd n v w m :
  length v = length w →
  vecmat n (vadd v w) m = vadd (vecmat n v m) (vecmat n w m).
Proof.
  intros Hlen. apply list_eq_same_length with n; [|apply length_vecmat|].
  { unfold vadd. rewrite length_zip_with, !length_vecmat. lia. }
  intros k x y Hk. unfold vadd at 2.
  rewrite lookup_zip_with, !lookup_vecmat by done. simpl.
  rewrite dot_vadd_l by done. by intros [= <-] [= <-].
Qed.

Lemma vecmat_vscale n x v m :
  vecmat n (vscale x v) m = vscale x (vecmat n v m).
Proof.
  apply list_eq_same_length with n; [|apply length_vecmat|].
  { unfold vscale. by rewrite length_fmap, length_vecmat. }
  intros k y z Hk. unfold vscale at 2.
  rewrite list_lookup_fmap, !lookup_vecmat by done. simpl.
  rewrite dot_vscale_l. by intros [= <-] [= <-].
Qed.

Lemma length_vscale x v : length (vscale x v) = length v.
Proof. unfold vscale. by rewrite length_fmap. Qed.

(** Row vector times a product of matrices. *)
Lemma vecmat_assoc n v (A B : list (list Qc)) :
  Forall (λ r, length r = n) A →
  vecmat n (vecmat n v A) B = vecmat n v (matmul n A B).
Proof.
  intros HA. revert v.
  induction HA as [|r A Hr HA IH]; intros v.
  { simpl. rewrite !vecmat_nil_r.
    apply list_eq_same_length with n;
      [apply length_replicate|apply length_vecmat|].
    intros k x y Hk. rewrite lookup_vecmat, lookup_replicate_2 by done.
    rewrite dot_zero_l. by intros [= <-] [= <-]. }
  destruct v as [|x v].
  { rewrite !vecmat_nil_l.
    apply list_eq_same_length with n;
      [apply length_replicate|apply length_vecmat|].
    intros k y z Hk. rewrite lookup_vecmat, lookup_replicate_2 by done.
    rewrite dot_zero_l. by intros [= <-] [= <-]. }
  simpl. rewrite !vecmat_cons by (done || apply length_vecmat).
  rewrite vecmat_vadd by (by rewrite length_vscale, length_vecmat).
  by rewrite vecmat_vscale, IH.
Qed.

Lemma dot_unit v k n :
  dot v (<[k := 1]> (replicate n 0)) =
  if decide (k < n)%nat then default 0 (v !! k) else 0.
Proof.
  revert k n. induction v as [|x v IH]; intros k n.
  { unfold dot. simpl. by destruct (decide _). }
  destruct n as [|n]; [by rewrite dot_nil_r|].
  destruct k as [|k]; simpl.
  - rewrite dot_cons. fold (replicate n (Q2Qc 0)).
    rewrite dot_comm, dot_zero_l. ring.
  - rewrite dot_cons, IH.
    destruct (decide (k < n)%nat), (decide (S k < S n)%nat);
      try lia; ring.
Qed.

Lemma column_identity n k :
  (k < n)%nat → column (identity n) k = <[k := 1]> (replicate n 0).
Proof.
  intros Hk. unfold column, identity.
  apply list_eq_same_length with n.
  { by rewrite length_insert, length_replicate. }
  { by rewrite !length_fmap, length_seq. }
  intros i x y Hi. rewrite !list_lookup_fmap, lookup_seq_lt by done.
  simpl. destruct (decide (i = k)) as [->|Hne].
  - rewrite !list_lookup_insert_eq by (by rewrite length_replicate).
    by intros [= <-] [= <-].
  - rewrite !list_lookup_insert_ne, !lookup_replicate_2 by done.
    by intros [= <-] [= <-].
Qed.

Lemma vecmat_identity n v : length v = n → vecmat n v (identity n) = v.
Proof.
  intros Hv. apply list_eq_same_length with n; [done|apply length_vecmat|].
  intros k x y Hk. rewrite lookup_vecmat, column_identity by done.
  rewrite dot_unit, decide_True by done.
  intros [= <-] ->. done.
Qed.

(** [(w E) . a = w . (E a)]. *)
Lemma dot_vecmat n w m a :
  Forall (λ r, length r = n) m → length a = n →
  dot (vecmat n w m) a = dot w (matvec m a).
Proof.
  intros Hm Ha. revert w.
  induction Hm as [|r m Hr Hm IH]; intros w.
  { rewrite vecmat_nil_r, dot_zero_l. simpl. by rewrite dot_nil_r. }
  destruct w as [|x w].
  { by rewrite vecmat_nil_l, dot_zero_l. }
  simpl. rewrite vecmat_cons by done.
  rewrite dot_vadd_l by (by rewrite length_vscale, length_vecmat).
  by rewrite dot_vscale_l, dot_cons, IH.
Qed.

End LinearAlgebra.


(** ** Locating the cell of a point *)

Section OneDimensionCell.
Import Numpy.
Local Open Scope Qc_scope.
Context (lo hi : Qc) (n : Z).
Context (Hreg : regular_dim (lo, hi) n).

Let u : Qc := (hi - lo) / of_int n.

Lemma eps_pos : 0 < eps.
Proof. done. Qed.

(** The margin keeps a centred coordinate strictly inside the extent. *)
Lemma centered_inside x :
  2 * eps < hi - lo →
  0 < clip (x - lo) (0 + 2 * eps) (hi - lo - 2 * eps) ∧
  clip (x - lo) (0 + 2 * eps) (hi - lo - 2 * eps) < hi - lo.
Proof.
  intros Hwide. pose proof eps_pos as Heps.
  unfold clip, maximum, minimum.
  repeat destruct (decide _); split; qc_lra.
Qed.

Lemma cell_index_bounds c :
  0 < c → c < hi - lo → (0 ≤ floor_divide c u < n)%Z.
Proof.
  intros H0 H1. apply floor_divide_bounds.
  - by apply (unit_pos lo hi n).
  - qc_lra.
  - unfold u. by rewrite (unit_cells lo hi n).
Qed.

Lemma unit_coordinate_bounds c :
  0 ≤ remainder c u ∧ remainder c u ≤ u.
Proof.
  destruct (remainder_bounds c u) as [H0 H1];
    [by apply (unit_pos lo hi n)|].
  split; [done|qc_lra].
Qed.

(** Clipping to the limits first does not change the centred and clipped
    coordinate. *)
Lemma center_after_clip x :
  clip (clip x lo hi - lo) (0 + 2 * eps) (hi - lo - 2 * eps)
  = clip (x - lo) (0 + 2 * eps) (hi - lo - 2 * eps).
Proof.
  destruct Hreg as [Hlim _]. simpl in Hlim. pose proof eps_pos as Heps.
  unfold clip, maximum, minimum.
  repeat destruct (decide _); qc_lra.
Qed.

Lemma clip_idempotent x : clip (clip x lo hi) lo hi = clip x lo hi.
Proof.
  destruct Hreg as [Hlim _]. simpl in Hlim.
  unfold clip, maximum, minimum.
  repeat destruct (decide _); qc_lra.
Qed.

End OneDimensionCell.

Section CellLocation.
Import Numpy.
Context (g : GridWorld) (Hg : regular_grid g).

Lemma length_num_points : length (num_points g) = ndim g.
Proof. unfold ndim. symmetry. by eapply Forall2_length. Qed.

Lemma length_num_vertices : length (num_vertices g) = ndim g.
Proof. unfold num_vertices. by rewrite length_fmap, length_num_points. Qed.

Lemma length_offset : length (offset g) = ndim g.
Proof. unfold offset, ndim. by rewrite length_fmap. Qed.

Lemma length_unit_maxes : length (unit_maxes g) = ndim g.
Proof.
  unfold unit_maxes. rewrite length_zip_with, length_num_points.
  unfold ndim. lia.
Qed.

Lemma unit_maxes_pos : Forall (λ u, 0 < u)%Qc (unit_maxes g).
Proof.
  unfold unit_maxes, regular_grid in *.
  destruct g as [lims nums vals]; simpl in *. clear vals.
  induction Hg as [|[lo hi] n lims nums Hn _ IH]; simpl; constructor;
    [|done].
  apply (unit_pos lo hi n Hn).
Qed.

(** With the margin, a centred point lies strictly inside the extents. *)
Lemma center_row_inside p :
  wider_than_margin g → length p = ndim g →
  Forall2 (λ c lim, 0 < c ∧ c < lim.2 - lim.1)%Qc
          (center_row g true p) (limits g).
Proof.
  unfold wider_than_margin, center_row, offset_limits, offset, ndim,
    regular_grid, vsub in *.
  destruct g as [lims nums vals]; simpl in *. clear vals.
  intros Hw. revert p Hw.
  induction Hg as [|[lo hi] n lims nums Hn _ IH]; intros [|x p] Hw Hlen;
    simplify_eq/=; [constructor|].
  inversion Hw as [|? ? Hw1 Hw2]; subst. simpl in Hw1.
  constructor; [|by apply IH].
  by apply centered_inside.
Qed.

(** Floor division of such a point gives a multi-index of the cell
    lattice. *)
Lemma cell_multi_index c :
  Forall2 (λ c lim, 0 < c ∧ c < lim.2 - lim.1)%Qc c (limits g) →
  in_shape (zip_with floor_divide c (unit_maxes g)) (num_points g).
Proof.
  unfold unit_maxes, regular_grid, in_shape in *.
  destruct g as [lims nums vals]; simpl in *. clear vals.
  revert c.
  induction Hg as [|[lo hi] n lims nums Hn _ IH]; intros c Hc;
    inversion Hc as [|x ? c' ? [Hx0 Hx1] Hc']; subst; simpl;
    [constructor|].
  constructor; [|by apply IH].
  by apply (cell_index_bounds lo hi n Hn).
Qed.

(** ... and the remainders are a point of the hyperrectangle. *)
Lemma unit_coordinates_in_cell c :
  length c = ndim g →
  in_cell g (zip_with remainder c (unit_maxes g)).
Proof.
  unfold in_cell, unit_maxes, regular_grid, ndim in *.
  destruct g as [lims nums vals]; simpl in *. clear vals.
  revert c.
  induction Hg as [|[lo hi] n lims nums Hn _ IH]; intros [|x c] Hlen;
    simplify_eq/=; constructor; [|by apply IH].
  apply (unit_coordinate_bounds lo hi n Hn).
Qed.

Lemma length_center_row clip p :
  length p = ndim g → length (center_row g clip p) = ndim g.
Proof.
  intros Hp. unfold center_row, offset_limits, vsub.
  destruct clip;
    rewrite ?length_zip_with, ?length_fmap, ?length_offset; unfold ndim in *;
    lia.
Qed.

Lemma length_clip_to_limits p :
  length p = ndim g → length (clip_to_limits g p) = ndim g.
Proof.
  intros Hp. unfold clip_to_limits. rewrite length_zip_with.
  unfold ndim in *. lia.
Qed.

(** Projection onto the limits does not move the centred, clipped point. *)
Lemma center_row_clip_to_limits p :
  center_row g true (clip_to_limits g p) = center_row g true p.
Proof.
  unfold center_row, clip_to_limits, offset_limits, offset, regular_grid,
    vsub in *.
  destruct g as [lims nums vals]; simpl in *. clear vals.
  revert p.
  induction Hg as [|[lo hi] n lims nums Hn _ IH]; intros [|x p];
    simpl; try done.
  f_equal; [|apply IH].
  apply (center_after_clip lo hi n Hn).
Qed.

Lemma clip_to_limits_idempotent p :
  clip_to_limits g (clip_to_limits g p) = clip_to_limits g p.
Proof.
  unfold clip_to_limits, regular_grid in *.
  destruct g as [lims nums vals]; simpl in *. clear vals.
  revert p.
  induction Hg as [|[lo hi] n lims nums Hn _ IH]; intros [|x p];
    simpl; try done.
  f_equal; [|apply IH].
  apply (clip_idempotent lo hi n Hn).
Qed.

End CellLocation.

(** ** Translating the hyperrectangle at the origin *)

Section Translation.
Import Numpy.

Lemma ravel_add dims a b :
  length a = length dims → length b = length dims →
  ravel dims (zip_with Z.add a b) = ravel dims a + ravel dims b.
Proof.
  revert a b. induction dims as [|d ds IH]; intros [|x a] [|y b] Ha Hb;
    simplify_eq/=; [done|].
  rewrite IH by done. lia.
Qed.

Lemma shifted_in_shape e q nums :
  Forall2 (λ k n, 0 ≤ k ≤ 1 ∧ 1 ≤ n) e nums → in_shape q nums →
  in_shape (zip_with Z.add e q) ((λ n, n + 1) <$> nums).
Proof.
  unfold in_shape. intros He. revert q.
  induction He as [|k n e nums [Hk Hn] _ IH]; intros q Hq;
    inversion Hq; subst; simpl; constructor; [lia|by apply IH].
Qed.

Lemma corner_in_shape e nums :
  Forall2 (λ k n, 0 ≤ k ≤ 1 ∧ 1 ≤ n) e nums →
  in_shape e ((λ n, n + 1) <$> nums).
Proof.
  unfold in_shape.
  induction 1 as [|k n e nums [Hk Hn] _ IH]; simpl; constructor;
    [lia|done].
Qed.

Context (g : GridWorld) (Hg : regular_grid g).

Lemma vertex_state_add e q :
  length e = ndim g → length q = ndim g →
  vertex_state g (zip_with Z.add e q)
  = vadd (vertex_state g e) (vmul (of_int <$> q) (unit_maxes g)).
Proof.
  unfold vertex_state, unit_maxes, offset, ndim, regular_grid, vadd, vmul
    in *.
  destruct g as [lims nums vals]; simpl in *. clear vals.
  revert e q.
  induction Hg as [|[lo hi] n lims nums Hn _ IH]; intros [|k e] [|j q] He Hq;
    simplify_eq/=; [done|].
  f_equal; [|by apply IH].
  rewrite of_int_add. ring.
Qed.

Lemma length_vertex_state e :
  length e = ndim g → length (vertex_state g e) = ndim g.
Proof.
  intros He. unfold vertex_state, vadd, vmul.
  rewrite !length_zip_with, length_fmap, length_unit_maxes, length_offset
    by done.
  lia.
Qed.

(** The corner vertex of a cell has the multi-index of the cell. *)
Lemma rectangle_corner_index_row_Some q :
  in_shape q (num_points g) →
  rectangle_corner_index_row g (ravel (num_points g) q)
  = Some (ravel (num_vertices g) q).
Proof.
  intros Hq. unfold rectangle_corner_index_row.
  rewrite unravel_index_Some by (by apply ravel_bounds). simpl.
  rewrite unravel_ravel by done.
  apply ravel_multi_index_Some. by apply in_shape_succ.
Qed.

Lemma rectangle_to_state_row_Some q :
  in_shape q (num_points g) →
  rectangle_to_state_row g (ravel (num_points g) q)
  = Some (vertex_state g q).
Proof.
  intros Hq. unfold rectangle_to_state_row.
  rewrite unravel_index_Some by (by apply ravel_bounds). simpl.
  by rewrite unravel_ravel.
Qed.

Lemma index_to_state_row_ravel ijk :
  in_shape ijk (num_vertices g) →
  index_to_state_row g (ravel (num_vertices g) ijk)
  = Some (vertex_state g ijk).
Proof.
  intros Hijk. unfold index_to_state_row.
  rewrite unravel_index_Some by (by apply ravel_bounds). simpl.
  by rewrite unravel_ravel.
Qed.

(** A corner of the hyperrectangle at the origin, moved to the cell with
    multi-index [q], is a vertex of the grid, and its state is the state
    of the corner moved by [q] cell widths. *)
Lemma shifted_corner e q :
  Forall2 (λ k n, 0 ≤ k ≤ 1 ∧ 1 ≤ n) e (num_points g) →
  in_shape q (num_points g) →
  0 ≤ ravel (num_vertices g) e + ravel (num_vertices g) q < nindex g ∧
  index_to_state_row g
    (ravel (num_vertices g) e + ravel (num_vertices g) q)
  = Some (vadd (vertex_state g e) (vmul (of_int <$> q) (unit_maxes g))).
Proof.
  intros He Hq.
  pose proof (shifted_in_shape _ _ _ He Hq) as Hs.
  fold (num_vertices g) in Hs.
  assert (length e = ndim g) as Hle
    by (by rewrite (Forall2_length He), length_num_points).
  assert (length q = ndim g) as Hlq
    by (by rewrite (Forall2_length Hq), length_num_points).
  rewrite <- ravel_add by (by rewrite length_num_vertices).
  split; [by apply ravel_bounds|].
  rewrite index_to_state_row_ravel by done.
  by rewrite vertex_state_add.
Qed.

End Translation.

(** ** What [__init__] establishes *)

Section Corners.
Import Numpy.

Lemma elem_of_cartesian p arrays :
  p ∈ Sklearn.cartesian arrays → Forall2 (λ x a, x ∈ a) p arrays.
Proof.
  revert p. induction arrays as [|a rest IH]; intros p; simpl.
  { intros ->%list_elem_of_singleton. constructor. }
  intros (x & Hp & Hx)%list_elem_of_bind.
  apply list_elem_of_bind in Hp as (r & Hp & Hr).
  apply list_elem_of_singleton in Hp as ->.
  constructor; [done|by apply IH].
Qed.

Lemma elem_of_insert_replicate (x z : Qc) i n :
  x ∈ <[i := z]> (replicate n 0%Qc) → x = 0%Qc ∨ x = z.
Proof.
  intros (j & Hj)%list_elem_of_lookup.
  apply list_lookup_insert_Some in Hj as [(_ & -> & _)|(_ & Hj)];
    [by right|].
  apply lookup_replicate in Hj as [-> _]. by left.
Qed.

Lemma diag_rows us :
  Forall2 (λ row u, ∀ x, x ∈ row → x = 0%Qc ∨ x = u) (diag us) us.
Proof.
  unfold diag. apply Forall2_same_length_lookup. split.
  { by rewrite length_imap. }
  intros i row u Hrow Hu.
  rewrite list_lookup_imap, Hu in Hrow. simpl in Hrow.
  injection Hrow as <-. intros x. apply elem_of_insert_replicate.
Qed.

(** Every row of [cartesian(np.diag(us))] has, in each dimension, either
    0 or the entry of [us]. *)
Lemma corners_coordinates us p :
  p ∈ Sklearn.cartesian (diag us) →
  Forall2 (λ x u, x = 0%Qc ∨ x = u) p us.
Proof.
  intros Hp%elem_of_cartesian.
  pose proof (diag_rows us) as Hrows.
  revert p Hp Hrows. generalize (diag us). intros rows p Hp Hrows.
  revert rows p Hp Hrows.
  induction us as [|u us IH]; intros rows p Hp Hrows.
  { inversion Hrows; subst. inversion Hp; subst. constructor. }
  inversion Hrows as [|row ? rows' ? Hrow Hrows']; subst.
  inversion Hp as [|x ? p' ? Hx Hp']; subst.
  constructor; [by apply Hrow|by apply (IH rows')].
Qed.

Context (g : GridWorld) (Hg : regular_grid g).

(** ... so, moved by the offset, it is the state of a corner vertex. *)
Lemma corner_point_state p :
  Forall2 (λ x u, x = 0%Qc ∨ x = u) p (unit_maxes g) →
  ∃ e, Forall2 (λ k n, 0 ≤ k ≤ 1 ∧ 1 ≤ n) e (num_points g) ∧
       vadd p (offset g) = vertex_state g e.
Proof.
  unfold vertex_state, unit_maxes, offset, regular_grid, vadd, vmul in *.
  destruct g as [lims nums vals]; simpl in *. clear vals.
  revert p.
  induction Hg as [|[lo hi] n lims nums Hn _ IH]; intros p Hp;
    inversion Hp as [|x ? p' ? Hx Hp']; subst; simpl.
  { exists []. split; [constructor|done]. }
  destruct (IH p' Hp') as (e & He & Heq).
  destruct Hn as [Hlim Hn]. simpl in *.
  destruct Hx as [->| ->].
  - exists (0 :: e). split; [constructor; [lia|done]|].
    simpl. apply (f_equal2 (@cons Qc)); [|exact Heq]. rewrite of_int_0. ring.
  - exists (1 :: e). split; [constructor; [lia|done]|].
    simpl. apply (f_equal2 (@cons Qc)); [|exact Heq]. rewrite of_int_1. ring.
Qed.

Lemma corner_point_index p :
  p ∈ Sklearn.cartesian (diag (unit_maxes g)) →
  ∃ v, state_to_index_row g (vadd p (offset g)) = Some v ∧
       corner_index g v.
Proof.
  intros Hp%corners_coordinates.
  destruct (corner_point_state p Hp) as (e & He & ->).
  exists (ravel (num_vertices g) e). split; [|by exists e].
  apply state_to_index_vertex; [done|]. by apply corner_in_shape.
Qed.

End Corners.

Lemma mapM_cons {A B} (f : A → option B) (x : A) (l : list A) :
  mapM f (x :: l) = y ← f x; k ← mapM f l; Some (y :: k).
Proof. done. Qed.

Lemma Triangulation_init_Some spatial_Delaunay linalg_inv lims num vals proj
    (self : Triangulation) :
  Triangulation_init spatial_Delaunay linalg_inv lims num vals proj = Some self →
  grid self = GridWorld_init lims num vals ∧
  spatial_Delaunay (Sklearn.cartesian (Numpy.diag (unit_maxes self)))
  = Some (triangulation self) ∧
  _triangulation_simplex_indices self (triangulation self)
  = Some (unit_simplices self) ∧
  _update_hyperplanes linalg_inv self (unit_simplices self)
  = Some (hyperplanes self) ∧
  nsimplex self = nsimplex_per_cell self * nrectangles self ∧
  project self = proj.
Proof.
  unfold Triangulation_init. intros H.
  destruct (spatial_Delaunay _) as [t|] eqn:Ht; [|done]. simpl in H.
  destruct (_triangulation_simplex_indices _ t) as [unit|] eqn:Hu; [|done].
  simpl in H.
  destruct (_update_hyperplanes _ _ unit) as [planes|] eqn:Hp; [|done].
  simpl in H. injection H as <-. simpl. done.
Qed.

Section Built.
Import Numpy.
Context (spatial_Delaunay : list (list Qc) → option Scipy.Delaunay).
Context (linalg_inv : list (list Qc) → option (list (list Qc))).
Context (lims : list (Qc * Qc)) (num : Z + list Z).
Context (vals : option (list Qc)) (proj : bool).
Context (self : Triangulation).
Context (Hinit : Triangulation_init spatial_Delaunay linalg_inv
                   lims num vals proj = Some self).
Context (Hg : regular_grid self).

Lemma nsimplex_eq : nsimplex self = nsimplex_per_cell self * nrectangles self.
Proof. by destruct (Triangulation_init_Some _ _ _ _ _ _ _ Hinit) as (_&_&_&_&?&_). Qed.

Lemma length_unit_simplices :
  Z.of_nat (length (unit_simplices self)) = nsimplex_per_cell self.
Proof.
  destruct (Triangulation_init_Some _ _ _ _ _ _ _ Hinit) as (_&_&Hu&_).
  unfold _triangulation_simplex_indices in Hu.
  destruct (state_to_index _ _) as [index_mapping|]; [|done]. simpl in Hu.
  apply length_mapM in Hu. unfold nsimplex_per_cell, Scipy.nsimplex. lia.
Qed.

Lemma length_hyperplanes :
  Z.of_nat (length (hyperplanes self)) = nsimplex_per_cell self.
Proof.
  destruct (Triangulation_init_Some _ _ _ _ _ _ _ Hinit) as (_&_&_&Hp&_).
  apply length_mapM in Hp. rewrite <- Hp. apply length_unit_simplices.
Qed.

(** Every unit simplex consists of corner vertices of the hyperrectangle
    at the origin ... *)
Lemma unit_simplices_corners :
  delaunay_contract self →
  Forall (Forall (corner_index self)) (unit_simplices self).
Proof.
  intros [Hpts _ _].
  destruct (Triangulation_init_Some _ _ _ _ _ _ _ Hinit) as (_&_&Hu&_).
  unfold _triangulation_simplex_indices in Hu.
  destruct (state_to_index _ _) as [index_mapping|] eqn:Hmap; [|done].
  simpl in Hu.
  assert (Forall (corner_index self) index_mapping) as Hcorner.
  { unfold state_to_index in Hmap. apply mapM_Some in Hmap.
    rewrite Hpts in Hmap. apply Forall2_fmap_l in Hmap.
    apply Forall_forall. intros v Hv.
    apply list_elem_of_In, list_elem_of_lookup in Hv as [i Hi].
    destruct (Forall2_lookup_r _ _ _ _ _ Hmap Hi) as (p & Hp & Hpv).
    simpl in Hpv.
    destruct (corner_point_index self Hg p) as (v' & Hv' & Hc).
    { apply list_elem_of_lookup. eauto. }
    congruence. }
  apply mapM_Some in Hu.
  apply Forall_forall. intros s' Hs'.
  apply list_elem_of_In, list_elem_of_lookup in Hs' as [j Hj].
  destruct (Forall2_lookup_r _ _ _ _ _ Hu Hj) as (s & _ & Hs).
  apply mapM_Some in Hs.
  apply Forall_forall. intros v Hv.
  apply list_elem_of_In, list_elem_of_lookup in Hv as [k Hk].
  destruct (Forall2_lookup_r _ _ _ _ _ Hs Hk) as (i & _ & Hi).
  destruct (decide (0 ≤ i)); [|done].
  rewrite Forall_forall in Hcorner. apply Hcorner.
  apply list_elem_of_In, list_elem_of_lookup. eauto.
Qed.

(** ... and has [ndim + 1] of them. *)
Lemma unit_simplices_width :
  delaunay_contract self →
  Forall (λ s, length s = S (ndim self)) (unit_simplices self).
Proof.
  intros [_ Hwidth _].
  destruct (Triangulation_init_Some _ _ _ _ _ _ _ Hinit) as (_&_&Hu&_).
  unfold _triangulation_simplex_indices in Hu.
  destruct (state_to_index _ _) as [index_mapping|]; [|done]. simpl in Hu.
  apply mapM_Some in Hu.
  apply Forall_forall. intros s' Hs'.
  apply list_elem_of_In, list_elem_of_lookup in Hs' as [j Hj].
  destruct (Forall2_lookup_r _ _ _ _ _ Hu Hj) as (s & Hs & Hss).
  apply length_mapM in Hss. rewrite <- Hss.
  rewrite Forall_forall in Hwidth. apply Hwidth.
  apply list_elem_of_In, list_elem_of_lookup. eauto.
Qed.

(** The states of a unit simplex, and of the same simplex moved to the
    cell with multi-index [q]. *)
Lemma shifted_simplex_states s q :
  Forall (corner_index self) s → in_shape q (num_points self) →
  ∃ pts,
    index_to_state self s = Some pts ∧
    index_to_state self ((λ v, v + ravel (num_vertices self) q) <$> s)
    = Some ((λ x, vadd x (vmul (of_int <$> q) (unit_maxes self))) <$> pts) ∧
    Forall (λ x, length x = ndim self) pts ∧
    length pts = length s ∧
    Forall (λ v, 0 ≤ v < nindex self)
           ((λ v, v + ravel (num_vertices self) q) <$> s).
Proof.
  intros Hs Hq. unfold index_to_state.
  induction Hs as [|v s (e & He & ->) _ (pts & IH1 & IH2 & IH3 & IH4 & IH5)].
  { exists []. simpl. repeat split; constructor. }
  exists (vertex_state self e :: pts).
  destruct (shifted_corner self Hg e q He Hq) as [Hrange Hstate].
  assert (length e = ndim self) as Hle
    by (by rewrite (Forall2_length He), length_num_points).
  rewrite fmap_cons, !mapM_cons.
  rewrite index_to_state_row_ravel by (done || by apply corner_in_shape).
  rewrite Hstate, IH1, IH2. simpl.
  repeat split; try done.
  - constructor; [by apply length_vertex_state|done].
  - by rewrite IH4.
  - by constructor.
Qed.

Lemma length_edges pts : length (edges pts) = pred (length pts).
Proof. destruct pts; simpl; [done|]. by rewrite length_fmap. Qed.

(** Every cached hyperplane matrix is the inverse of the edge matrix of
    its unit simplex. *)
Lemma hyperplanes_spec :
  delaunay_contract self → inverts linalg_inv →
  Forall2 (λ s h, ∃ pts, index_to_state self s = Some pts ∧
                         is_inverse (ndim self) (edges pts) h)
          (unit_simplices self) (hyperplanes self).
Proof.
  intros Hdel Hinv.
  destruct (Triangulation_init_Some _ _ _ _ _ _ _ Hinit) as (_&_&_&Hp&_).
  apply mapM_Some in Hp.
  pose proof (unit_simplices_width Hdel) as Hwidth.
  revert Hwidth. induction Hp as [|s h ss hs Hsh _ IH]; intros Hwidth;
    [constructor|].
  inversion Hwidth as [|? ? Hw Hws]; subst.
  constructor; [|by apply IH].
  unfold hyperplane_of in Hsh.
  destruct (index_to_state self s) as [pts|] eqn:Hpts; [|done].
  simpl in Hsh. exists pts. split; [done|].
  destruct (Hinv _ _ Hsh) as [_ Hi].
  apply length_mapM in Hpts.
  by rewrite length_edges, <- Hpts, Hw in Hi.
Qed.

Lemma nrectangles_pos : 0 < nrectangles self.
Proof. apply prod_pos. by apply num_points_pos. Qed.

(** Translating all points leaves the edges unchanged. *)
Lemma edges_translate pts t :
  Forall (λ x, length x = length t) pts →
  edges ((λ x, vadd x t) <$> pts) = edges pts.
Proof.
  destruct pts as [|o pts]; [done|]. intros Hlen.
  inversion Hlen as [|? ? Ho Hpts]; subst. simpl.
  rewrite <- list_fmap_compose. apply Forall_fmap_ext.
  eapply Forall_impl; [|exact Hpts]. intros x Hx. simpl.
  clear Hlen Hpts pts. revert o Ho x Hx.
  induction t as [|z t IH]; intros [|a o] Ho [|b x] Hx; simplify_eq/=;
    [done|].
  unfold vsub, vadd in *. simpl. f_equal; [ring|by apply IH].
Qed.

(** The vertices and the states of a simplex of the grid, from its global
    id. *)
Lemma simplex_vertices id :
  delaunay_contract self →
  0 ≤ id < nsimplex self →
  let unit_id := id `mod` nsimplex_per_cell self in
  let q := unravel (num_points self) (id `div` nsimplex_per_cell self) in
  let t := vmul (of_int <$> q) (unit_maxes self) in
  ∃ s pts,
    in_shape q (num_points self) ∧
    ravel (num_points self) q = id `div` nsimplex_per_cell self ∧
    unit_simplices self !! Z.to_nat unit_id = Some s ∧
    getitem (unit_simplices self) unit_id = Some s ∧
    0 ≤ unit_id < nsimplex_per_cell self ∧
    Forall (corner_index self) s ∧
    length s = S (ndim self) ∧
    rectangle_corner_index_row self (id `div` nsimplex_per_cell self)
    = Some (ravel (num_vertices self) q) ∧
    simplices_row self id
    = Some ((λ v, v + ravel (num_vertices self) q) <$> s) ∧
    index_to_state self s = Some pts ∧
    index_to_state self ((λ v, v + ravel (num_vertices self) q) <$> s)
    = Some ((λ x, vadd x t) <$> pts) ∧
    Forall (λ x, length x = ndim self) pts ∧
    length pts = S (ndim self) ∧
    Forall (λ v, 0 ≤ v < nindex self)
           ((λ v, v + ravel (num_vertices self) q) <$> s).
Proof.
  intros Hdel Hid unit_id q t.
  pose proof nrectangles_pos as Hrect. rewrite nsimplex_eq in Hid.
  assert (0 < nsimplex_per_cell self) as Hcell by nia.
  assert (0 ≤ unit_id < nsimplex_per_cell self) as Hunit
    by (by apply Z.mod_pos_bound).
  assert (0 ≤ id `div` nsimplex_per_cell self < nrectangles self) as Hr.
  { split; [apply Z.div_pos; lia|]. apply Z.div_lt_upper_bound; lia. }
  assert (in_shape q (num_points self)) as Hq
    by (apply unravel_bounds; [by apply num_points_pos|done]).
  assert (ravel (num_points self) q = id `div` nsimplex_per_cell self) as Hrq
    by (apply ravel_unravel; [by apply num_points_pos|done]).
  assert (is_Some (unit_simplices self !! Z.to_nat unit_id)) as [s Hs].
  { apply lookup_lt_is_Some. pose proof length_unit_simplices. lia. }
  assert (getitem (unit_simplices self) unit_id = Some s) as Hgs.
  { unfold getitem. rewrite decide_True; [done|].
    pose proof length_unit_simplices. lia. }
  assert (Forall (corner_index self) s) as Hcorner.
  { pose proof (unit_simplices_corners Hdel) as Hc.
    rewrite Forall_forall in Hc. apply Hc.
    apply list_elem_of_In, list_elem_of_lookup. eauto. }
  assert (length s = S (ndim self)) as Hwidth.
  { pose proof (unit_simplices_width Hdel) as Hw.
    rewrite Forall_forall in Hw. apply Hw.
    apply list_elem_of_In, list_elem_of_lookup. eauto. }
  destruct (shifted_simplex_states s q Hcorner Hq)
    as (pts & Hpts & Hshift & Hlen & Hcount & Hrange).
  assert (rectangle_corner_index_row self (id `div` nsimplex_per_cell self)
          = Some (ravel (num_vertices self) q)) as Hcorner_index.
  { rewrite <- Hrq. by apply rectangle_corner_index_row_Some. }
  assert (simplices_row self id
          = Some ((λ v, v + ravel (num_vertices self) q) <$> s)) as Hsimplex.
  { unfold simplices_row. fold unit_id. rewrite Hgs. simpl.
    by rewrite Hcorner_index. }
  assert (length pts = S (ndim self)) as Hpoints by (by rewrite Hcount).
  by exists s, pts.
Qed.

(** ... and its hyperplane matrix. *)
Lemma simplex_geometry id :
  delaunay_contract self → inverts linalg_inv →
  0 ≤ id < nsimplex self →
  let unit_id := id `mod` nsimplex_per_cell self in
  let q := unravel (num_points self) (id `div` nsimplex_per_cell self) in
  let t := vmul (of_int <$> q) (unit_maxes self) in
  ∃ s h pts,
    in_shape q (num_points self) ∧
    getitem (unit_simplices self) unit_id = Some s ∧
    Forall (corner_index self) s ∧
    length s = S (ndim self) ∧
    rectangle_corner_index_row self (id `div` nsimplex_per_cell self)
    = Some (ravel (num_vertices self) q) ∧
    simplices_row self id
    = Some ((λ v, v + ravel (num_vertices self) q) <$> s) ∧
    getitem (hyperplanes self) unit_id = Some h ∧
    index_to_state self s = Some pts ∧
    is_inverse (ndim self) (edges pts) h ∧
    index_to_state self ((λ v, v + ravel (num_vertices self) q) <$> s)
    = Some ((λ x, vadd x t) <$> pts) ∧
    Forall (λ x, length x = ndim self) pts ∧
    length pts = S (ndim self) ∧
    Forall (λ v, 0 ≤ v < nindex self)
           ((λ v, v + ravel (num_vertices self) q) <$> s).
Proof.
  intros Hdel Hinv Hid unit_id q t.
  destruct (simplex_vertices id Hdel Hid)
    as (s & pts & Hq & _ & Hs & Hgs & Hunit & Hcorner & Hwidth & Hci
        & Hsimplex & Hpts & Hshift & Hlen & Hcount & Hrange).
  fold unit_id in Hs, Hgs, Hunit. fold q in Hq, Hci, Hsimplex, Hshift, Hrange.
  fold t in Hshift.
  pose proof (hyperplanes_spec Hdel Hinv) as Hplanes.
  destruct (Forall2_lookup_l _ _ _ _ _ Hplanes Hs)
    as (h & Hh & pts' & Hpts' & Hinverse).
  assert (getitem (hyperplanes self) unit_id = Some h) as Hgh.
  { unfold getitem. rewrite decide_True; [done|].
    pose proof length_hyperplanes. lia. }
  assert (pts' = pts) as -> by congruence.
  by exists s, h, pts.
Qed.

(** ** Locating the simplex of a point *)

Lemma state_to_rectangle_row_Some p :
  wider_than_margin self → length p = ndim self →
  let c := center_row self true p in
  let q := zip_with floor_divide c (unit_maxes self) in
  in_shape q (num_points self) ∧
  state_to_rectangle_row self false c = Some (ravel (num_points self) q) ∧
  state_to_rectangle_row self true p = Some (ravel (num_points self) q) ∧
  0 ≤ ravel (num_points self) q < nrectangles self.
Proof.
  intros Hwide Hp c q.
  pose proof (center_row_inside self Hg p Hwide Hp) as Hc.
  pose proof (cell_multi_index self Hg _ Hc) as Hq.
  split; [exact Hq|].
  split; [by apply ravel_multi_index_Some|].
  split; [by apply ravel_multi_index_Some|].
  by apply ravel_bounds.
Qed.

Lemma find_simplex_row_Some p :
  delaunay_contract self → wider_than_margin self → length p = ndim self →
  ∃ id, find_simplex_row self p = Some id ∧ 0 ≤ id < nsimplex self.
Proof.
  intros Hdel Hwide Hp.
  destruct (state_to_rectangle_row_Some p Hwide Hp) as (Hq & Hrect & _ & Hr).
  assert (length (center_row self true p) = ndim self) as Hlen
    by (by apply length_center_row).
  pose proof (covers_cell self Hdel _
                (unit_coordinates_in_cell self Hg _ Hlen)) as Hcover.
  unfold find_simplex_row. rewrite Hrect.
  eexists. split; [reflexivity|].
  rewrite nsimplex_eq.
  revert Hcover Hr.
  generalize (Scipy.find_simplex (triangulation self)
                (zip_with remainder (center_row self true p) (unit_maxes self))).
  generalize (ravel (num_points self)
                (zip_with floor_divide (center_row self true p)
                          (unit_maxes self))).
  generalize (nsimplex_per_cell self) (nrectangles self).
  intros cells rects r sid Hsid Hr.
  split; [nia|].
  assert (sid + r * cells ≤ (cells - 1) + (rects - 1) * cells) by nia.
  lia.
Qed.

(** An id for which [simplices] returns is a valid simplex id. *)
Lemma simplices_row_valid id simplex :
  simplices_row self id = Some simplex → 0 ≤ id < nsimplex self.
Proof.
  unfold simplices_row. intros Hrow.
  destruct (getitem (unit_simplices self) _) as [s|] eqn:Hs; [|done].
  simpl in Hrow.
  destruct (rectangle_corner_index_row self _) as [c|] eqn:Hc; [|done].
  unfold rectangle_corner_index_row in Hc.
  destruct (unravel_index _ (num_points self)) as [q|] eqn:Hq; [|done].
  apply unravel_index_inv in Hq as [Hr _]. fold (nrectangles self) in Hr.
  assert (0 < nsimplex_per_cell self) as Hcell.
  { pose proof length_unit_simplices as Hlen.
    destruct (unit_simplices self) as [|? ?] eqn:Hunit; simpl in Hlen; [|lia].
    unfold getitem in Hs. simpl in Hs.
    by repeat destruct (decide _). }
  rewrite nsimplex_eq.
  pose proof (Z.div_mod id (nsimplex_per_cell self)) as Hdm.
  pose proof (Z.mod_pos_bound id (nsimplex_per_cell self) Hcell) as Hm.
  revert Hr Hdm Hm.
  generalize (id `div` nsimplex_per_cell self) (id `mod` nsimplex_per_cell self).
  generalize (nsimplex_per_cell self) (nrectangles self) Hcell.
  clear. intros cells rects Hcell d m Hd Hdm Hm. nia.
Qed.

(** The two weight computations for a point whose simplex id is known,
    with the geometry of the simplex: its vertices, their states (the origin
    first) and its hyperplane matrix. *)
Lemma weights_rows_of_id p id :
  delaunay_contract self → inverts linalg_inv →
  find_simplex_row self p = Some id →
  0 ≤ id < nsimplex self →
  ∃ simplex o pts h,
    simplices_row self id = Some simplex ∧
    getitem (hyperplanes self) (id `mod` nsimplex_per_cell self) = Some h ∧
    _get_weights_row self p
    = Some (let rest := vecmat (ndim self) (vsub (projected self p) o) h in
            ((1 - vsum rest)%Qc :: rest, simplex)) ∧
    _get_weights_gradient_row self p
    = Some ((λ r, (- vsum r)%Qc :: r) <$> h, simplex) ∧
    index_to_state self simplex = Some (o :: pts) ∧
    Forall (λ x, length x = ndim self) (o :: pts) ∧
    length pts = ndim self ∧
    is_inverse (ndim self) (edges (o :: pts)) h ∧
    Forall (λ v, 0 ≤ v < nindex self) simplex ∧
    length simplex = S (ndim self).
Proof.
  intros Hdel Hinv Hfind Hid.
  destruct (simplex_geometry id Hdel Hinv Hid)
    as (s & h & upts & Hq & Hs & Hcorner & Hwidth & Hci & Hsimplex & Hh
        & Hupts & Hinverse & Hstates & Hlen & Hcount & Hrange).
  set (q := unravel (num_points self) (id `div` nsimplex_per_cell self)) in *.
  set (t := vmul (of_int <$> q) (unit_maxes self)) in *.
  set (simplex := (λ v, v + ravel (num_vertices self) q) <$> s) in *.
  assert (length t = ndim self) as Ht.
  { unfold t, vmul.
    rewrite length_zip_with, length_fmap, (Forall2_length Hq),
      length_num_points, length_unit_maxes by done.
    lia. }
  assert (edges ((λ x, vadd x t) <$> upts) = edges upts) as Hedges.
  { apply edges_translate. by rewrite Ht. }
  destruct upts as [|uo upts]; [done|].
  destruct s as [|v0 s]; [done|].
  rewrite (fmap_cons _ uo upts) in Hstates.
  set (o := vadd uo t) in *. set (pts := (λ x, vadd x t) <$> upts) in *.
  assert (index_to_state_row self (v0 + ravel (num_vertices self) q) = Some o)
    as Horigin.
  { pose proof Hstates as Hrows.
    unfold index_to_state, simplex in Hrows. apply mapM_Some in Hrows.
    rewrite fmap_cons in Hrows. by inversion Hrows. }
  assert (Forall (λ x, length x = ndim self) (o :: pts)) as Hlens.
  { change (o :: pts) with ((λ x, vadd x t) <$> (uo :: upts)).
    apply Forall_fmap. eapply Forall_impl; [|exact Hlen].
    intros x Hx. simpl in *. unfold vadd. rewrite length_zip_with. lia. }
  exists simplex, o, pts, h.
  split; [done|]. split; [done|].
  split.
  { unfold _get_weights_row. rewrite Hfind. simpl.
    rewrite Hsimplex. simpl. rewrite Horigin. simpl.
    by rewrite Hh. }
  split.
  { unfold _get_weights_gradient_row. rewrite Hfind. simpl.
    rewrite Hsimplex. simpl. by rewrite Hh. }
  split; [done|]. split; [done|].
  split; [unfold pts; rewrite length_fmap; simpl in Hcount; lia|].
  split; [by rewrite <- Hedges in Hinverse|].
  split; [done|].
  unfold simplex. by rewrite length_fmap.
Qed.

(** Whenever [_get_weights] returns a row for a point, this is the row. *)
Lemma get_weights_row_inv p row :
  delaunay_contract self → inverts linalg_inv →
  _get_weights_row self p = Some row →
  ∃ id simplex o pts h,
    find_simplex_row self p = Some id ∧
    0 ≤ id < nsimplex self ∧
    row = (let rest := vecmat (ndim self) (vsub (projected self p) o) h in
           ((1 - vsum rest)%Qc :: rest, simplex)) ∧
    index_to_state self simplex = Some (o :: pts) ∧
    Forall (λ x, length x = ndim self) (o :: pts) ∧
    length pts = ndim self ∧
    is_inverse (ndim self) (edges (o :: pts)) h ∧
    Forall (λ v, 0 ≤ v < nindex self) simplex ∧
    length simplex = S (ndim self).
Proof.
  intros Hdel Hinv Hrow. pose proof Hrow as Hrow'.
  unfold _get_weights_row in Hrow'.
  destruct (find_simplex_row self p) as [id|] eqn:Hfind; [|done].
  simpl in Hrow'.
  destruct (simplices_row self id) as [simplex'|] eqn:Hsimplex; [|done].
  pose proof (simplices_row_valid _ _ Hsimplex) as Hid.
  destruct (weights_rows_of_id p id Hdel Hinv Hfind Hid)
    as (simplex & o & pts & h & _ & _ & Hw & _ & ? & ? & ? & ? & ? & ?).
  exists id, simplex, o, pts, h.
  split; [done|]. split; [done|]. split; [congruence|done].
Qed.

Lemma get_weights_gradient_row_inv p row :
  delaunay_contract self → inverts linalg_inv →
  _get_weights_gradient_row self p = Some row →
  ∃ id simplex h,
    find_simplex_row self p = Some id ∧
    0 ≤ id < nsimplex self ∧
    getitem (hyperplanes self) (id `mod` nsimplex_per_cell self) = Some h ∧
    row = ((λ r, (- vsum r)%Qc :: r) <$> h, simplex) ∧
    square (ndim self) h ∧
    Forall (λ v, 0 ≤ v < nindex self) simplex ∧
    length simplex = S (ndim self).
Proof.
  intros Hdel Hinv Hrow. pose proof Hrow as Hrow'.
  unfold _get_weights_gradient_row in Hrow'.
  destruct (find_simplex_row self p) as [id|] eqn:Hfind; [|done].
  simpl in Hrow'.
  destruct (simplices_row self id) as [simplex'|] eqn:Hsimplex; [|done].
  pose proof (simplices_row_valid _ _ Hsimplex) as Hid.
  destruct (weights_rows_of_id p id Hdel Hinv Hfind Hid)
    as (simplex & o & pts & h & _ & Hh & _ & Hg' & _ & _ & _ & [Hsq _] & ? & ?).
  exists id, simplex, h.
  split; [done|]. split; [done|]. split; [done|]. split; [congruence|done].
Qed.

(** Whenever [simplices] returns a row, its entries are vertex indices. *)
Lemma simplices_row_in_range id simplex :
  delaunay_contract self →
  simplices_row self id = Some simplex →
  Forall (λ v, 0 ≤ v < nindex self) simplex ∧ length simplex = S (ndim self).
Proof.
  intros Hdel Hsimplex.
  pose proof (simplices_row_valid _ _ Hsimplex) as Hid.
  destruct (simplex_vertices id Hdel Hid)
    as (s & pts & _ & _ & _ & _ & _ & _ & Hwidth & _ & Hrow & _ & _ & _ & _
        & Hrange).
  rewrite Hrow in Hsimplex. injection Hsimplex as <-.
  split; [done|]. by rewrite length_fmap.
Qed.

(** On a grid wider than the margin both computations return. *)
Lemma weights_rows_Some p :
  delaunay_contract self → inverts linalg_inv → wider_than_margin self →
  length p = ndim self →
  is_Some (_get_weights_row self p) ∧
  is_Some (_get_weights_gradient_row self p).
Proof.
  intros Hdel Hinv Hwide Hp.
  destruct (find_simplex_row_Some p Hdel Hwide Hp) as (id & Hfind & Hid).
  destruct (weights_rows_of_id p id Hdel Hinv Hfind Hid)
    as (simplex & o & pts & h & _ & _ & Hw & Hgw & _).
  rewrite Hw, Hgw. by split.
Qed.

End Built.

(** ** Evaluation from the rows of weights *)

Section Rows.
Import Numpy.
Context (self : Triangulation) (values : list Qc).
Context (Hvalues : vertex_values self = Some values).

Lemma getitem_in_range {A} (a : list A) (i : Z) :
  0 ≤ i < Z.of_nat (length a) → getitem a i = a !! Z.to_nat i.
Proof. intros Hi. unfold getitem. by rewrite decide_True. Qed.

Lemma getitems_in_range (simplex : list Z) :
  Forall (λ v, 0 ≤ v < Z.of_nat (length values)) simplex →
  getitems values simplex = Some (values_of values simplex).
Proof.
  intros Hs. unfold getitems, values_of.
  apply mapM_Some, Forall2_fmap_r, Forall_Forall2_diag.
  eapply Forall_impl; [|exact Hs]. intros v Hv. simpl in *.
  rewrite getitem_in_range by done.
  destruct (lookup_lt_is_Some_2 values (Z.to_nat v)) as [x ->]; [lia|done].
Qed.

Lemma values_at_in_range (simplices : list (list Z)) :
  Forall (Forall (λ v, 0 ≤ v < Z.of_nat (length values))) simplices →
  values_at self simplices = Some (values_of values <$> simplices).
Proof.
  intros Hs. unfold values_at. rewrite Hvalues. simpl.
  apply mapM_Some, Forall2_fmap_r, Forall_Forall2_diag.
  eapply Forall_impl; [|exact Hs]. intros s Hv. simpl.
  by apply getitems_in_range.
Qed.

Lemma zip_with_rows {W R} (f : W → list Qc → R) (g : list Z → list Qc)
    (rows : list (W * list Z)) :
  zip_with f (rows.*1) (g <$> rows.*2) = (λ row, f row.1 (g row.2)) <$> rows.
Proof. induction rows as [|[w s] rows IH]; simpl; [done|]. by f_equal. Qed.

(** [evaluate] blends, row by row, the values at the vertices of the
    simplex with the weights. *)
Lemma evaluate_rows points rows :
  mapM (_get_weights_row self) points = Some rows →
  Forall (λ row, Forall (λ v, 0 ≤ v < Z.of_nat (length values)) row.2) rows →
  evaluate self points
  = Some ((λ row, dot row.1 (values_of values row.2)) <$> rows).
Proof.
  intros Hrows Hrange. unfold evaluate, _get_weights. rewrite Hrows. simpl.
  rewrite values_at_in_range by (by apply Forall_fmap). simpl.
  by rewrite zip_with_rows.
Qed.

Lemma gradient_rows points rows :
  mapM (_get_weights_gradient_row self) points = Some rows →
  Forall (λ row, Forall (λ v, 0 ≤ v < Z.of_nat (length values)) row.2) rows →
  gradient self points
  = Some ((λ row, matvec row.1 (values_of values row.2)) <$> rows).
Proof.
  intros Hrows Hrange. unfold gradient, _get_weights_gradient.
  rewrite Hrows. simpl.
  rewrite values_at_in_range by (by apply Forall_fmap). simpl.
  by rewrite zip_with_rows.
Qed.

End Rows.

(** ** Sparse matrices built from rows of weights *)

Section Sparse.
Import Numpy.

Lemma dot_row_app d1 r1 c1 d2 r2 c2 v i :
  length r1 = length d1 → length c1 = length d1 →
  Scipy.dot_row (d1 ++ d2) (r1 ++ r2) (c1 ++ c2) v i
  = (Scipy.dot_row d1 r1 c1 v i + Scipy.dot_row d2 r2 c2 v i)%Qc.
Proof.
  revert r1 c1. induction d1 as [|x d1 IH]; intros [|r r1] [|c c1] Hr Hc;
    simplify_eq/=; [ring|].
  rewrite IH by done. destruct (decide _); ring.
Qed.

Lemma dot_row_block w s r v i :
  length s = length w →
  Scipy.dot_row w (replicate (length w) r) s v i
  = if decide (r = i) then dot w (values_of v s) else 0%Qc.
Proof.
  revert s. induction w as [|x w IH]; intros [|c s] Hs; simplify_eq/=.
  { by destruct (decide _). }
  rewrite IH by done. unfold values_of. simpl. rewrite dot_cons.
  by destruct (decide _).
Qed.

Lemma length_concat_rows {A} (rows : list (list A)) n :
  Forall (λ row, length row = n) rows →
  length (concat rows) = (length rows * n)%nat.
Proof.
  induction 1 as [|row rows Hrow _ IH]; simpl; [done|].
  rewrite length_app, IH, Hrow. lia.
Qed.

Lemma length_repeat {A} (a : list A) n :
  length (repeat a n) = (length a * n)%nat.
Proof.
  unfold repeat. induction a as [|x a IH]; [done|].
  rewrite bind_cons, length_app, length_replicate, IH. simpl. lia.
Qed.

Lemma Forall_repeat {A} (P : A → Prop) (a : list A) n :
  Forall P a → Forall P (repeat a n).
Proof.
  unfold repeat. induction 1 as [|x a Hx _ IH]; [constructor|].
  rewrite bind_cons. apply Forall_app. split; [|done].
  by apply Forall_replicate.
Qed.

Lemma Forall_arange k : Forall (λ r, 0 ≤ r < Z.of_nat k) (arange k).
Proof.
  unfold arange. apply Forall_fmap, Forall_forall. intros j Hj.
  apply list_elem_of_In, elem_of_seq in Hj. simpl. lia.
Qed.

Lemma length_arange k : length (arange k) = k.
Proof. unfold arange. by rewrite length_fmap, length_seq. Qed.

(** The product of the matrix assembled from [rows] of weights and vertex
    indices with a vector of values: one blend per row. *)
Lemma dot_row_blocks (rows : list (list Qc * list Z)) n start v i :
  Forall (λ row, length row.1 = n ∧ length row.2 = n) rows →
  Scipy.dot_row (concat rows.*1)
    (repeat (Z.of_nat <$> seq start (length rows)) n) (concat rows.*2) v i
  = from_option (λ row, dot row.1 (values_of v row.2)) 0%Qc
      (if decide (Z.of_nat start ≤ i)
       then rows !! (Z.to_nat i - start)%nat else None).
Proof.
  intros Hrows. revert start.
  induction Hrows as [|[w s] rows [Hw Hs] _ IH]; intros start; simpl in *.
  { by destruct (decide _). }
  rewrite dot_row_app by (rewrite ?length_replicate; lia).
  rewrite <- Hw at 1. rewrite dot_row_block by lia.
  change (list_fmap (list Qc * list Z)%type (list Qc) fst rows) with (rows.*1).
  change (list_fmap (list Qc * list Z)%type (list Z) snd rows) with (rows.*2).
  change (list_fmap nat Z Z.of_nat (seq (S start) (length rows)))
    with (Z.of_nat <$> seq (S start) (length rows)).
  rewrite (IH (S start)).
  destruct (decide (Z.of_nat start = i)) as [<-|Hne].
  - rewrite decide_False, decide_True by lia.
    replace (Z.to_nat (Z.of_nat start) - start)%nat with 0%nat by lia.
    simpl. ring.
  - destruct (decide (Z.of_nat (S start) ≤ i)).
    + rewrite decide_True by lia.
      replace (Z.to_nat i - start)%nat with (S (Z.to_nat i - S start)) by lia.
      simpl. ring.
    + rewrite decide_False by lia. simpl. ring.
Qed.

Lemma dot_rows (rows : list (list Qc * list Z)) n v :
  Forall (λ row, length row.1 = n ∧ length row.2 = n) rows →
  Scipy.dot_row (concat rows.*1) (repeat (arange (length rows)) n)
    (concat rows.*2) v <$> arange (length rows)
  = (λ row, dot row.1 (values_of v row.2)) <$> rows.
Proof.
  intros Hrows. unfold arange at 2.
  apply list_eq. intros j. rewrite !list_lookup_fmap.
  destruct (rows !! j) as [row|] eqn:Hj.
  - rewrite lookup_seq_lt by (by eapply lookup_lt_Some). simpl.
    unfold arange. rewrite (dot_row_blocks rows n 0 v) by done.
    rewrite decide_True by lia.
    replace (Z.to_nat (Z.of_nat j) - 0)%nat with j by lia.
    by rewrite Hj.
  - rewrite lookup_seq_ge by (by apply lookup_ge_None). done.
Qed.

End Sparse.

(** ** Barycentric coordinates *)

Section Barycentric.
Import Numpy.
Local Open Scope Qc_scope.
Implicit Types (v w a o r : list Qc) (pts : list (list Qc)) (n k : nat).

Lemma vsum_fmap_sub (c : Qc) w col :
  length w = length col →
  dot w ((λ x, x - c) <$> col) = dot w col - vsum w * c.
Proof.
  revert col. induction w as [|y w IH]; intros [|x col] Hlen; simplify_eq/=.
  { unfold dot. simpl. ring. }
  rewrite !dot_cons, IH by done. fold (vsum w). ring.
Qed.

Lemma column_edges o pts k :
  (k < length o)%nat → Forall (λ x, length x = length o) pts →
  column (edges (o :: pts)) k
  = (λ x, x - default 0 (o !! k)) <$> column pts k.
Proof.
  intros Hk Hpts. unfold column. simpl.
  rewrite <- !list_fmap_compose. apply Forall_fmap_ext.
  eapply Forall_impl; [|exact Hpts]. intros x Hx. simpl in *.
  unfold vsub. rewrite lookup_zip_with.
  destruct (lookup_lt_is_Some_2 x k) as [xk ->]; [lia|].
  destruct (lookup_lt_is_Some_2 o k) as [ok ->]; [lia|]. done.
Qed.

Lemma length_column pts k : length (column pts k) = length pts.
Proof. unfold column. by rewrite length_fmap. Qed.

Lemma edges_rows o pts :
  Forall (λ x, length x = length o) pts →
  Forall (λ r, length r = length o) (edges (o :: pts)).
Proof.
  intros Hpts. simpl. apply Forall_fmap.
  eapply Forall_impl; [|exact Hpts]. intros x Hx. simpl in *.
  unfold vsub. rewrite length_zip_with. lia.
Qed.

(** A combination of the vertices with coefficients that sum to one,
    measured from the origin, is the combination of the edges with the
    other coefficients. *)
Lemma combination_from_origin c0 cs o pts :
  vsum (c0 :: cs) = 1 → length cs = length pts →
  Forall (λ x, length x = length o) pts →
  vsub (vecmat (length o) (c0 :: cs) (o :: pts)) o
  = vecmat (length o) cs (edges (o :: pts)).
Proof.
  intros Hsum Hlen Hpts.
  apply list_eq_same_length with (length o); [apply length_vecmat| |].
  { unfold vsub. rewrite length_zip_with, length_vecmat. lia. }
  intros k x y Hk. unfold vsub.
  rewrite lookup_zip_with, !lookup_vecmat by done.
  destruct (lookup_lt_is_Some_2 o k) as [ok Hok]; [lia|].
  rewrite column_edges, Hok by done. simpl. intros [= <-] [= <-].
  rewrite vsum_fmap_sub by (by rewrite length_column).
  rewrite Hok. simpl. rewrite dot_cons.
  assert (vsum cs = 1 - c0) as ->.
  { rewrite <- Hsum, vsum_cons. ring. }
  ring.
Qed.

(** The blend of an affine field over the vertices of a simplex. *)
Lemma affine_blend a (b : Qc) w o pts :
  length w = length pts →
  length a = length o →
  Forall (λ x, length x = length o) pts →
  dot w ((λ x, dot a x + b) <$> pts)
  = dot w (matvec (edges (o :: pts)) a) + vsum w * (dot a o + b).
Proof.
  intros Hlen Ha Hpts. revert w Hlen.
  induction Hpts as [|x pts Hx _ IH]; intros [|y w] Hlen; simplify_eq/=.
  { unfold dot. simpl. ring. }
  rewrite !dot_cons, IH by done. fold (vsum w).
  rewrite dot_vsub_l by done. rewrite (dot_comm x a), (dot_comm o a). ring.
Qed.

Lemma matvec_identity n a : length a = n → matvec (identity n) a = a.
Proof.
  intros Ha. unfold matvec, identity.
  apply list_eq_same_length with n; [done| |].
  { by rewrite !length_fmap, length_seq. }
  intros k x y Hk. rewrite !list_lookup_fmap, lookup_seq_lt by done. simpl.
  rewrite dot_comm, dot_unit, decide_True by done.
  intros [= <-] ->. done.
Qed.

Lemma matvec_matmul n (A B : list (list Qc)) a :
  Forall (λ r, length r = n) B → length a = n →
  matvec (matmul n A B) a = matvec A (matvec B a).
Proof.
  intros HB Ha. unfold matvec at 1 2, matmul.
  rewrite <- list_fmap_compose. apply list_fmap_ext. intros i r _. simpl.
  by apply dot_vecmat.
Qed.

(** An element of a list of non-negative numbers is at most their sum. *)
Lemma elem_le_vsum (c : Qc) cs :
  Forall (λ x, 0 ≤ x) cs → c ∈ cs → c ≤ vsum cs.
Proof.
  induction 1 as [|x cs Hx Hcs IH]; [by intros ?%elem_of_nil|].
  assert (0 ≤ vsum cs) as Hs.
  { clear -Hcs. induction Hcs as [|y cs Hy _ IH]; [done|].
    rewrite vsum_cons. by apply Qcplus_nonneg_nonneg. }
  rewrite vsum_cons. intros [->|Hin]%elem_of_cons.
  - qc_lra.
  - specialize (IH Hin). qc_lra.
Qed.

Lemma coefficients_in_unit_interval cs :
  Forall (λ c, 0 < c) cs → vsum cs = 1 → Forall (λ c, 0 ≤ c ∧ c ≤ 1) cs.
Proof.
  intros Hpos Hsum.
  assert (Forall (λ c, 0 ≤ c) cs) as Hnonneg.
  { eapply Forall_impl; [|exact Hpos]. intros c Hc. simpl in *. qc_lra. }
  apply Forall_forall. intros c Hc%list_elem_of_In.
  rewrite Forall_forall in Hnonneg. split.
  - apply Hnonneg. by apply list_elem_of_In.
  - rewrite <- Hsum. apply elem_le_vsum; [|done].
    by apply Forall_forall.
Qed.

End Barycentric.

(** ** Blocks of gradient weights as matrix rows *)

Section Blocks.
Import Numpy.
Context (n : nat) (v : list Qc).


Lemma block_rows_fst (m : list (list Qc)) (s : list Z) :
  ((λ w, (w, s)) <$> m).*1 = m.
Proof. induction m as [|w m IH]; simpl; [done|]. by f_equal. Qed.

Lemma block_rows_snd (m : list (list Qc)) (s : list Z) :
  ((λ w, (w, s)) <$> m).*2 = replicate (length m) s.
Proof. induction m as [|w m IH]; simpl; [done|]. by f_equal. Qed.

Lemma blocks_data (rows : list (list (list Qc) * list Z)) :
  concat (concat rows.*1) = concat (rows ≫= block_rows).*1.
Proof.
  induction rows as [|[m s] rows IH]; [done|].
  rewrite bind_cons, fmap_app, !concat_app, <- IH. unfold block_rows. simpl.
  by rewrite concat_app, block_rows_fst.
Qed.

Lemma blocks_cols (rows : list (list (list Qc) * list Z)) :
  Forall (λ row, length row.1 = n) rows →
  concat ((λ s, concat (replicate n s)) <$> rows.*2)
  = concat (rows ≫= block_rows).*2.
Proof.
  induction 1 as [|[m s] rows Hm _ IH]; [done|].
  rewrite bind_cons, fmap_app, !concat_app, <- IH. unfold block_rows.
  simpl in *. by rewrite block_rows_snd, Hm.
Qed.

Lemma blocks_length (rows : list (list (list Qc) * list Z)) :
  Forall (λ row, length row.1 = n) rows →
  length (rows ≫= block_rows) = (length rows * n)%nat.
Proof.
  induction 1 as [|[m s] rows Hm _ IH]; [done|].
  rewrite bind_cons, length_app, IH. unfold block_rows.
  rewrite length_fmap. simpl in *. lia.
Qed.

Lemma blocks_products (rows : list (list (list Qc) * list Z)) :
  (λ r, dot r.1 (values_of v r.2)) <$> (rows ≫= block_rows)
  = concat ((λ row, matvec row.1 (values_of v row.2)) <$> rows).
Proof.
  induction rows as [|[m s] rows IH]; [done|].
  rewrite bind_cons, fmap_app, IH. unfold block_rows. simpl. f_equal.
  unfold matvec. by rewrite <- list_fmap_compose.
Qed.

End Blocks.

(** ** Rounding to a vertex *)

Section Rounding.
Import Numpy.
Local Open Scope Qc_scope.

Lemma half_twice :
  Q2Qc (1 # 2) + Q2Qc (1 # 2) ≤ 1 ∧ 1 ≤ Q2Qc (1 # 2) + Q2Qc (1 # 2).
Proof. split; by vm_compute. Qed.

Lemma rint_nearest x :
  x - of_int (rint x) ≤ Q2Qc (1 # 2) ∧ of_int (rint x) - x ≤ Q2Qc (1 # 2).
Proof.
  unfold rint. destruct (floor_spec x) as [Hlo Hhi].
  remember (floor x) as f eqn:Hf. clear Hf.
  destruct half_twice as [Hhalf1 Hhalf2].
  remember (Q2Qc (1 # 2)) as half eqn:Hh. clear Hh.
  repeat destruct (decide _); try destruct (Z.even f);
    rewrite ?of_int_add, ?of_int_1; qc_lra.
Qed.

Lemma rint_bounds x a b :
  of_int a ≤ x → x ≤ of_int b → (a ≤ rint x ≤ b)%Z.
Proof.
  intros Ha Hb. destruct (rint_nearest x) as [H1 H2].
  destruct half_twice as [Hhalf1 Hhalf2].
  remember (Q2Qc (1 # 2)) as half eqn:Hh. clear Hh.
  remember (rint x) as r eqn:Hr. clear Hr.
  assert (of_int (a - 1) < of_int r) as Hlo.
  { replace (a - 1)%Z with (a + -1)%Z by lia. rewrite of_int_add.
    replace (of_int (-1)) with (- (1))
      by (apply (bool_decide_unpack _); by vm_compute).
    qc_lra. }
  assert (of_int r < of_int (b + 1)) as Hhi.
  { rewrite of_int_add, of_int_1. qc_lra. }
  apply of_int_lt in Hlo, Hhi. lia.
Qed.

(** A quotient between two bounds, given the bounds of the dividend. *)
Lemma quotient_bounds x u a b :
  0 < u → of_int a * u ≤ x → x ≤ of_int b * u →
  of_int a ≤ x / u ∧ x / u ≤ of_int b.
Proof.
  intros Hu Ha Hb.
  assert (u ≠ 0) as Hu0 by (intros ->; by apply Qclt_not_eq in Hu).
  split; apply (Qcmult_le_mono_pos_r _ _ u Hu);
    by replace (x / u * u) with x by (by field).
Qed.

End Rounding.

Section VertexIndex.
Import Numpy.
Local Open Scope Qc_scope.
Context (lo hi : Qc) (n : Z).
Context (Hreg : regular_dim (lo, hi) n).

(** The index that [state_to_index] computes in one dimension is a vertex
    number. *)
Lemma vertex_index_bounds x :
  (0 ≤ rint ((clip x lo hi - lo) / ((hi - lo) / of_int n)) ≤ n)%Z.
Proof.
  pose proof (unit_pos lo hi n Hreg) as Hu.
  pose proof (unit_cells lo hi n Hreg) as Hcells.
  assert (lo ≤ hi) as Hle by (destruct Hreg as [H _]; simpl in H; qc_lra).
  destruct (clip_bounds x lo hi Hle) as [Hc1 Hc2].
  remember (clip x lo hi) as c eqn:Heq. clear Heq.
  remember ((hi - lo) / of_int n) as u eqn:Heq. clear Heq.
  assert (of_int n * u ≤ hi - lo ∧ hi - lo ≤ of_int n * u) as [Hn1 Hn2]
    by (rewrite Hcells; split; apply Qcle_refl).
  clear Hcells.
  destruct (quotient_bounds (c - lo) u 0 n) as [H1 H2]; [done|..].
  - rewrite of_int_0. qc_lra.
  - remember (of_int n * u) as e eqn:Heq. clear Heq. qc_lra.
  - by apply rint_bounds.
Qed.

End VertexIndex.

Section VertexRows.
Import Numpy.

Lemma state_to_index_row_in_shape g p :
  regular_grid g → length p = ndim g →
  ∃ ijk,
    in_shape ijk (num_vertices g) ∧
    state_to_index_row g p = Some (ravel (num_vertices g) ijk).
Proof.
  intros Hg Hp.
  exists (rint <$> vdiv (vsub (clip_to_limits g p) (offset g)) (unit_maxes g)).
  assert (in_shape
            (rint <$> vdiv (vsub (clip_to_limits g p) (offset g))
                           (unit_maxes g))
            (num_vertices g)) as Hshape.
  { unfold clip_to_limits, unit_maxes, offset, num_vertices,
      regular_grid, ndim, in_shape, vdiv, vsub in *.
    destruct g as [lims nums vals]; simpl in *. clear vals.
    revert p Hp.
    induction Hg as [|[lo hi] n lims nums Hn _ IH]; intros [|x p] Hp;
      simplify_eq/=; constructor; [|by apply IH].
    pose proof (vertex_index_bounds lo hi n Hn x). lia. }
  split; [done|].
  unfold state_to_index_row. by apply ravel_multi_index_Some.
Qed.

End VertexRows.

(** ** Selection matrices *)

Section Selection.
Import Numpy.

Lemma repeat_once {A} (a : list A) : repeat a 1 = a.
Proof.
  unfold repeat. induction a as [|x a IH]; [done|].
  rewrite bind_cons, IH. done.
Qed.

Lemma selection_rows (nodes : list Z) :
  concat ((λ c : Z, ([1%Qc], [c])) <$> nodes).*1 = replicate (length nodes) 1%Qc ∧
  concat ((λ c : Z, ([1%Qc], [c])) <$> nodes).*2 = nodes.
Proof.
  induction nodes as [|c nodes [IH1 IH2]]; [done|]. simpl in *.
  split; f_equal; assumption.
Qed.

Lemma values_of_selection (v : list Qc) (nodes : list Z) :
  (λ row : list Qc * list Z, dot row.1 (values_of v row.2))
    <$> ((λ c : Z, ([1%Qc], [c])) <$> nodes)
  = values_of v nodes.
Proof.
  unfold values_of. rewrite <- list_fmap_compose.
  apply list_fmap_ext. intros _ c _. simpl.
  unfold dot, vmul, vsum. simpl. ring.
Qed.

(** The product of the 0/1 matrix that selects the columns [nodes], one per
    row, with a vector of values. *)
Lemma selection_dot (v : list Qc) (nodes : list Z) :
  Scipy.dot_row (replicate (length nodes) 1%Qc) (arange (length nodes)) nodes v
    <$> arange (length nodes)
  = values_of v nodes.
Proof.
  destruct (selection_rows nodes) as [H1 H2].
  rewrite <- (values_of_selection v nodes).
  rewrite <- (dot_rows _ 1 v).
  - by rewrite length_fmap, repeat_once, H1, H2.
  - apply Forall_fmap, Forall_forall. by intros c _.
Qed.

End Selection.

(** ** Nearest-vertex lookup *)

Lemma state_to_index_Some (g : GridWorld) (points : list (list Qc)) :
  regular_grid g →
  Forall (λ p, length p = ndim g) points →
  ∃ nodes, state_to_index g points = Some nodes ∧
           Forall (λ v, 0 ≤ v < nindex g) nodes.
Proof.
  intros Hg Hpoints.
  induction Hpoints as [|p points Hp _ (nodes & Hn & Hr)].
  { exists []. by split; constructor. }
  destruct (state_to_index_row_in_shape g p Hg Hp) as (ijk & Hijk & Hrow).
  exists (Numpy.ravel (num_vertices g) ijk :: nodes).
  unfold state_to_index in *. rewrite mapM_cons, Hrow, Hn.
  split; [done|]. constructor; [|done]. by apply ravel_bounds.
Qed.

Lemma state_to_index_clip_to_limits (g : GridWorld) (points : list (list Qc)) :
  regular_grid g →
  state_to_index g (clip_to_limits g <$> points) = state_to_index g points.
Proof.
  intros Hg. unfold state_to_index.
  induction points as [|p points IH]; [done|].
  rewrite fmap_cons, !mapM_cons, IH.
  replace (state_to_index_row g (clip_to_limits g p))
    with (state_to_index_row g p); [done|].
  unfold state_to_index_row. by rewrite clip_to_limits_idempotent.
Qed.

(** ** Index conversions, in and out of range *)

Lemma mapM_bind_compose {A B C} (f : A → option B) (h : B → option C)
    (l : list A) :
  mapM f l ≫= mapM h = mapM (λ x, f x ≫= h) l.
Proof.
  induction l as [|x l IH]; [done|].
  rewrite !mapM_cons, <- IH.
  destruct (f x) as [y|]; [|done].
  destruct (mapM f l) as [ys|]; cbn -[mapM].
  - by rewrite mapM_cons.
  - by destruct (h y).
Qed.

Section InRange.
Import Numpy.
Context (g : GridWorld) (Hg : regular_grid g).

Lemma index_to_state_row_is_Some v :
  is_Some (index_to_state_row g v) ↔ 0 ≤ v < nindex g.
Proof.
  split.
  - intros [state Hv]. unfold index_to_state_row in Hv.
    destruct (unravel_index v (num_vertices g)) as [ijk|] eqn:Hijk; [|done].
    by apply unravel_index_inv in Hijk as [Hrange _].
  - intros Hv. rewrite index_to_state_row_Some by done. by eexists.
Qed.

Lemma rectangle_to_state_row_is_Some r :
  is_Some (rectangle_to_state_row g r) ↔ 0 ≤ r < nrectangles g.
Proof.
  split.
  - intros [state Hr]. unfold rectangle_to_state_row in Hr.
    destruct (unravel_index r (num_points g)) as [ijk|] eqn:Hijk; [|done].
    by apply unravel_index_inv in Hijk as [Hrange _].
  - intros Hr. unfold rectangle_to_state_row.
    rewrite unravel_index_Some by done. by eexists.
Qed.

(** The corner index of a rectangle is the vertex index of its bottom-left
    corner state. *)
Lemma corner_index_state r :
  rectangle_corner_index_row g r ≫= index_to_state_row g
  = rectangle_to_state_row g r.
Proof.
  unfold rectangle_corner_index_row, rectangle_to_state_row.
  destruct (unravel_index r (num_points g)) as [ijk|] eqn:Hijk; [|done].
  apply unravel_index_inv in Hijk as [Hrange ->]. simpl.
  pose proof (num_points_pos g Hg) as Hpos.
  pose proof (unravel_bounds _ _ Hpos Hrange) as Hq.
  assert (in_shape (unravel (num_points g) r) (num_vertices g)) as Hv
    by (by apply in_shape_succ).
  rewrite (ravel_multi_index_Some _ _ Hv). simpl.
  by apply index_to_state_row_ravel.
Qed.

Lemma rectangle_corner_index_row_is_Some r :
  is_Some (rectangle_corner_index_row g r) ↔ 0 ≤ r < nrectangles g.
Proof.
  split.
  - intros [v Hr]. unfold rectangle_corner_index_row in Hr.
    destruct (unravel_index r (num_points g)) as [ijk|] eqn:Hijk; [|done].
    by apply unravel_index_inv in Hijk as [Hrange _].
  - intros Hr. pose proof (num_points_pos g Hg) as Hpos.
    rewrite <- (ravel_unravel (num_points g) r) by done.
    rewrite rectangle_corner_index_row_Some by (by apply unravel_bounds).
    by eexists.
Qed.

End InRange.

(** ** Triangulations built on the unit cell *)

(** Over the rationals the constructor sets up the unit simplices on the
    hyperrectangle at the origin. *)
Lemma constructed_on_unit_cell
    spatial_Delaunay linalg_inv lims num vals proj (self : Triangulation) :
  Triangulation_init spatial_Delaunay linalg_inv lims num vals proj
  = Some self →
  regular_grid self → delaunay_contract self →
  built_on_unit_cell self.
Proof.
  intros Hinit Hg Hdel. split; [|split].
  - by apply (nsimplex_eq _ _ _ _ _ _ _ Hinit).
  - by apply (length_unit_simplices _ _ _ _ _ _ _ Hinit).
  - by apply (unit_simplices_corners _ _ _ _ _ _ _ Hinit Hg).
Qed.

Section UnitCell.
Import Numpy.
Context (self : Triangulation).
Context (Hg : regular_grid self) (Hbuilt : built_on_unit_cell self).

(** The simplex with a valid id: the unit simplex, its rectangle, its
    vertices and their states. *)
Lemma simplex_of_unit_cell id :
  0 ≤ id < nsimplex self →
  let unit_id := id `mod` nsimplex_per_cell self in
  let q := unravel (num_points self) (id `div` nsimplex_per_cell self) in
  let t := vmul (of_int <$> q) (unit_maxes self) in
  ∃ s pts,
    in_shape q (num_points self) ∧
    ravel (num_points self) q = id `div` nsimplex_per_cell self ∧
    getitem (unit_simplices self) unit_id = Some s ∧
    rectangle_corner_index_row self (id `div` nsimplex_per_cell self)
    = Some (ravel (num_vertices self) q) ∧
    simplices_row self id
    = Some ((λ v, v + ravel (num_vertices self) q) <$> s) ∧
    index_to_state self s = Some pts ∧
    index_to_state self ((λ v, v + ravel (num_vertices self) q) <$> s)
    = Some ((λ x, vadd x t) <$> pts) ∧
    Forall (λ x, length x = ndim self) pts.
Proof.
  intros Hid unit_id q t.
  destruct Hbuilt as (Hcount & Hunits & Hcorners).
  pose proof (nrectangles_pos self Hg) as Hrect. rewrite Hcount in Hid.
  assert (0 < nsimplex_per_cell self) as Hcell by nia.
  assert (0 ≤ unit_id < nsimplex_per_cell self) as Hunit
    by (by apply Z.mod_pos_bound).
  assert (0 ≤ id `div` nsimplex_per_cell self < nrectangles self) as Hr.
  { split; [apply Z.div_pos; lia|]. apply Z.div_lt_upper_bound; lia. }
  assert (in_shape q (num_points self)) as Hq
    by (apply unravel_bounds; [by apply num_points_pos|done]).
  assert (ravel (num_points self) q = id `div` nsimplex_per_cell self) as Hrq
    by (apply ravel_unravel; [by apply num_points_pos|done]).
  assert (is_Some (unit_simplices self !! Z.to_nat unit_id)) as [s Hs].
  { apply lookup_lt_is_Some. lia. }
  assert (getitem (unit_simplices self) unit_id = Some s) as Hgs.
  { unfold getitem. rewrite decide_True; [done|]. lia. }
  assert (Forall (corner_index self) s) as Hcorner.
  { rewrite Forall_forall in Hcorners. apply Hcorners.
    apply list_elem_of_In, list_elem_of_lookup. eauto. }
  destruct (shifted_simplex_states self Hg s q Hcorner Hq)
    as (pts & Hpts & Hshift & Hlen & _ & _).
  assert (rectangle_corner_index_row self (id `div` nsimplex_per_cell self)
          = Some (ravel (num_vertices self) q)) as Hcorner_index.
  { rewrite <- Hrq. by apply rectangle_corner_index_row_Some. }
  assert (simplices_row self id
          = Some ((λ v, v + ravel (num_vertices self) q) <$> s)) as Hsimplex.
  { unfold simplices_row. fold unit_id. rewrite Hgs. simpl.
    by rewrite Hcorner_index. }
  by exists s, pts.
Qed.

End UnitCell.

(** ** The two-dimensional instance satisfies the assumptions *)

Lemma example_inverts : inverts Example.inv2.
Proof.
  intros m h Hm. unfold Example.inv2 in Hm.
  destruct m as [|[|a [|b [|? ?]]] [|[|c [|d [|? ?]]] [|? ?]]]; try done.
  destruct (decide _) as [|Hdet]; [done|]. injection Hm as <-.
  split; [by repeat constructor|].
  split; [by repeat constructor|].
  unfold Numpy.matmul, Numpy.vecmat, Numpy.identity, Numpy.dot, Numpy.column.
  simpl. split; repeat f_equal; by field.
Qed.

Lemma example_constructed values project :
  Example.construct values project
  = Some (default Example.fallback (Example.construct values project)).
Proof. by vm_compute. Qed.

Lemma example_regular_grid values project :
  regular_grid (default Example.fallback (Example.construct values project)).
Proof. repeat constructor; by vm_compute. Qed.

Lemma example_wider_than_margin values project :
  wider_than_margin
    (default Example.fallback (Example.construct values project)).
Proof. repeat constructor; by vm_compute. Qed.

Lemma example_delaunay_contract values project :
  delaunay_contract
    (default Example.fallback (Example.construct values project)).
Proof.
  split.
  - by vm_compute.
  - repeat constructor.
  - intros q Hq.
    change (nsimplex_per_cell _) with 2.
    change (Scipy.find_simplex _ q)
      with (Example.locate (Example.frac 1 2) (Example.frac 1 2) q).
    unfold in_cell in Hq.
    change (unit_maxes _) with [Example.frac 1 2; Example.frac 1 2] in Hq.
    inversion Hq as [|x ? q1 ? [Hx0 Hx1] Hq1]; subst.
    inversion Hq1 as [|y ? q2 ? [Hy0 Hy1] Hq2]; subst.
    inversion Hq2; subst.
    unfold Example.locate. rewrite decide_True by done.
    destruct (decide _); lia.
Qed.


(** ** Batches *)

Lemma mapM_exists {A B} (f : A → option B) (R : A → B → Prop) (l : list A) :
  Forall (λ x, ∃ y, f x = Some y ∧ R x y) l →
  ∃ k, mapM f l = Some k ∧ Forall2 R l k.
Proof.
  induction 1 as [|x l (y & Hy & HR) _ (k & Hk & IH)].
  - exists []. split; [done|constructor].
  - exists (y :: k). rewrite mapM_cons, Hy, Hk. split; [done|by constructor].
Qed.

Lemma mapM_exists2 {A B C} (f : A → option B) (g : A → option C)
    (R : B → C → Prop) (l : list A) :
  Forall (λ x, ∃ y z, f x = Some y ∧ g x = Some z ∧ R y z) l →
  ∃ ys zs, mapM f l = Some ys ∧ mapM g l = Some zs ∧ Forall2 R ys zs.
Proof.
  induction 1 as [|x l (y & z & Hy & Hz & HR) _ (ys & zs & Hys & Hzs & IH)].
  - exists [], []. repeat split; [done..|constructor].
  - exists (y :: ys), (z :: zs). rewrite !mapM_cons, Hy, Hz, Hys, Hzs.
    repeat split; [done..|by constructor].
Qed.

Lemma mapM_related {A B C} (f : A → option B) (R : B → C → Prop)
    (l : list A) (k : list C) :
  Forall2 (λ x z, ∃ y, f x = Some y ∧ R y z) l k →
  ∃ ys, mapM f l = Some ys ∧ Forall2 R ys k.
Proof.
  induction 1 as [|x z l k (y & Hy & HR) _ (ys & Hys & IH)].
  - exists []. split; [done|constructor].
  - exists (y :: ys). rewrite mapM_cons, Hy, Hys. split; [done|by constructor].
Qed.

Lemma mapM_is_Some_Forall {A B} (f : A → option B) (l : list A) :
  Forall (λ x, is_Some (f x)) l → is_Some (mapM f l).
Proof. intros H. apply mapM_is_Some. exact H. Qed.

Lemma get_weights_inv (self : Triangulation) points weights simplices :
  _get_weights self points = Some (weights, simplices) →
  ∃ rows, mapM (_get_weights_row self) points = Some rows ∧
          weights = rows.*1 ∧ simplices = rows.*2.
Proof.
  unfold _get_weights. destruct (mapM _ points) as [rows|]; [|done].
  simpl. intros [= <- <-]. by exists rows.
Qed.

Lemma get_weights_gradient_inv (self : Triangulation) points weights simplices :
  _get_weights_gradient self points = Some (weights, simplices) →
  ∃ rows, mapM (_get_weights_gradient_row self) points = Some rows ∧
          weights = rows.*1 ∧ simplices = rows.*2.
Proof.
  unfold _get_weights_gradient. destruct (mapM _ points) as [rows|]; [|done].
  simpl. intros [= <- <-]. by exists rows.
Qed.

Lemma Forall2_Forall_r {A B} (R : A → B → Prop) (P : B → Prop) l k :
  Forall2 R l k → (∀ x y, R x y → P y) → Forall P k.
Proof. induction 1; intros HP; constructor; eauto. Qed.

(** ** The claims *)

(** Point location over the rationals, where the margin of C10 is not
    rounded away.  On a regular grid whose extents are all wider than the
    margin of two machine epsilons, for every batch of points (however far
    outside the limits), the centred and clipped coordinates lie strictly
    between 0 and the extent, [state_to_rectangle] returns rectangle indices
    in [0, nrectangles) and [find_simplex] returns simplex ids in
    [0, nsimplex). *)
Theorem clipped_points_are_located
    spatial_Delaunay linalg_inv lims num vals proj (self : Triangulation)
    (points : list (list Qc)) :
  Triangulation_init spatial_Delaunay linalg_inv lims num vals proj
  = Some self →
  regular_grid self →
  delaunay_contract self →
  wider_than_margin self →
  Forall (λ p, length p = ndim self) points →
  Forall (λ c, Forall2 (λ x lim, 0 < x ∧ x < lim.2)%Qc c (offset_limits self))
         (_center_states self points true) ∧
  ∃ rectangles ids,
    state_to_rectangle self points true = Some rectangles ∧
    Forall (λ r, 0 ≤ r < nrectangles self) rectangles ∧
    find_simplex self points = Some ids ∧
    Forall (λ id, 0 ≤ id < nsimplex self) ids.
Proof.
  intros Hinit Hg Hdel Hwide Hpoints.
  split.
  { unfold _center_states. apply Forall_fmap.
    eapply Forall_impl; [|exact Hpoints]. intros p Hp. simpl.
    pose proof (center_row_inside self Hg p Hwide Hp) as Hc.
    unfold offset_limits. apply Forall2_fmap_r.
    eapply Forall2_impl; [|exact Hc].
    by intros x lim. }
  destruct (mapM_exists (state_to_rectangle_row self true)
              (λ _ r, 0 ≤ r < nrectangles self) points) as (rs & Hrs & Hr).
  { eapply Forall_impl; [|exact Hpoints]. intros p Hp. simpl.
    destruct (state_to_rectangle_row_Some self Hg p Hwide Hp)
      as (_ & _ & Hrect & Hrange).
    eauto. }
  destruct (mapM_exists (find_simplex_row self)
              (λ _ id, 0 ≤ id < nsimplex self) points) as (ids & Hids & Hid).
  { eapply Forall_impl; [|exact Hpoints]. intros p Hp. simpl.
    by apply (find_simplex_row_Some _ _ _ _ _ _ _ Hinit Hg). }
  exists rs, ids. repeat split; try done.
  - eapply Forall2_Forall_r; [exact Hr|]. by intros.
  - eapply Forall2_Forall_r; [exact Hid|]. by intros.
Qed.

(** C10, the code at two failing inputs.  Over binary64, on the grid of
    twenty unit cells from -10 to 10, the margin is rounded away,
    20 - 2 eps = 20: the upper limit 10 of the domain is centred and clipped
    to the extent 20 itself, its cell multi-index is 20 and
    [state_to_rectangle] raises, as it does for the point 11 beyond the
    limit, while points below the upper limit are located.  Over the
    rationals the point 10 is located in the last cell, 19.  Where the margin
    is not rounded away it can exceed the extent: on the regular grid that
    is one machine epsilon wide, the clipped coordinate of the point 0 is
    negative in exact arithmetic and [state_to_rectangle] raises. *)
Theorem clip_margin_does_not_locate :
  PrimFloat.sub (Binary64.of_int 20)
                (PrimFloat.mul (Binary64.of_int 2) Binary64.eps)
  = Binary64.of_int 20 ∧
  Binary64._center_states Example.wide_limits [[Binary64.of_int 10]] true
  = [[Binary64.of_int 20]] ∧
  Binary64.state_to_rectangle Example.wide_limits [20]
    [[Binary64.of_int 10]] true = None ∧
  Binary64.state_to_rectangle Example.wide_limits [20]
    [[Binary64.of_int 11]] true = None ∧
  Binary64.state_to_rectangle Example.wide_limits [20]
    [[Binary64.of_int (-12)]; [Binary64.of_int 0]; [Binary64.of_int 9]] true
  = Some [0; 10; 19] ∧
  regular_grid Example.wide ∧
  state_to_rectangle Example.wide [[Numpy.of_int 10]] true = Some [19] ∧
  regular_grid Example.tiny ∧
  _center_states Example.tiny [[0%Qc]] true = [[(- Numpy.eps)%Qc]] ∧
  state_to_rectangle Example.tiny [[0%Qc]] true = None.
Proof.
  split; [by vm_compute|].
  split; [by vm_compute|].
  split; [by vm_compute|].
  split; [by vm_compute|].
  split; [by vm_compute|].
  split; [repeat constructor; by vm_compute|].
  split; [by vm_compute|].
  split; [repeat constructor; by vm_compute|].
  split; [|by vm_compute].
  apply (bool_decide_unpack _). by vm_compute.
Qed.

Lemma clipped_points_are_located_witness :
  Forall (λ c, Forall2 (λ x lim, 0 < x ∧ x < lim.2)%Qc c
                       (offset_limits Example.plane))
         (_center_states Example.plane
            [[Example.frac 5 1; Example.frac 5 1];
             [Example.frac (-3) 1; Example.frac 1 4]] true) ∧
  ∃ rectangles ids,
    state_to_rectangle Example.plane
      [[Example.frac 5 1; Example.frac 5 1];
       [Example.frac (-3) 1; Example.frac 1 4]] true = Some rectangles ∧
    Forall (λ r, 0 ≤ r < nrectangles Example.plane) rectangles ∧
    find_simplex Example.plane
      [[Example.frac 5 1; Example.frac 5 1];
       [Example.frac (-3) 1; Example.frac 1 4]] = Some ids ∧
    Forall (λ id, 0 ≤ id < nsimplex Example.plane) ids.
Proof.
  apply (clipped_points_are_located Example.delaunay2 Example.inv2
           Example.unit_square (inl 2) (Some Example.plane_values) false).
  - apply example_constructed.
  - apply example_regular_grid.
  - apply example_delaunay_contract.
  - apply example_wider_than_margin.
  - by repeat constructor.
Defined.

(** C7.  Whenever [_get_weights_gradient] returns for a batch of points,
    the block of each point has, in its non-origin columns, the cached
    hyperplane matrix of the unit simplex that [find_simplex] locates and,
    in its origin column, the negated row sums; so each of its [ndim] rows
    of [ndim + 1] gradient weights sums to zero. *)
Theorem gradient_weights_sum_to_zero
    spatial_Delaunay linalg_inv lims num vals proj (self : Triangulation)
    (points : list (list Qc)) :
  Triangulation_init spatial_Delaunay linalg_inv lims num vals proj
  = Some self →
  regular_grid self →
  delaunay_contract self →
  inverts linalg_inv →
  Forall (λ p, length p = ndim self) points →
  ∀ weights simplices,
    _get_weights_gradient self points = Some (weights, simplices) →
    ∃ ids,
      find_simplex self points = Some ids ∧
      Forall2 (λ id w,
                 ∃ h, Numpy.getitem (hyperplanes self)
                        (id `mod` nsimplex_per_cell self) = Some h ∧
                      Forall2 (λ row hrow, ∃ w0, row = w0 :: hrow ∧
                                                 w0 = (- Numpy.vsum hrow)%Qc)
                              w h)
              ids weights ∧
      Forall (λ w, length w = ndim self ∧
                   Forall (λ row, length row = S (ndim self) ∧
                                  Numpy.vsum row = 0%Qc) w)
             weights.
Proof.
  intros Hinit Hg Hdel Hinv Hpoints.
  - intros weights simplices (rows & Hrows & -> & ->)%get_weights_gradient_inv.
    apply mapM_Some in Hrows.
    destruct (mapM_related (find_simplex_row self)
                (λ id row, ∃ h,
                   Numpy.getitem (hyperplanes self)
                     (id `mod` nsimplex_per_cell self) = Some h ∧
                   square (ndim self) h ∧
                   row.1 = (λ r, (- Numpy.vsum r)%Qc :: r) <$> h) points rows)
      as (ids & Hids & Hrel).
    { eapply Forall2_impl; [|exact Hrows]. intros p row Hrow.
      destruct (get_weights_gradient_row_inv _ _ _ _ _ _ _ Hinit Hg p row
                  Hdel Hinv Hrow)
        as (id & simplex & h & Hfind & _ & Hh & -> & Hsq & _).
      exists id. split; [done|]. by exists h. }
    exists ids. split; [done|]. split.
    + apply Forall2_fmap_r. eapply Forall2_impl; [|exact Hrel].
      intros id row (h & Hh & _ & Heq). simpl. rewrite Heq.
      exists h. split; [done|].
      apply Forall2_fmap_l, Forall_Forall2_diag, Forall_forall.
      intros r _. by exists (- Numpy.vsum r)%Qc.
    + apply Forall_fmap. eapply Forall2_Forall_r; [exact Hrel|].
      intros id row (h & _ & [Hlen Hrowlen] & Heq). simpl. rewrite Heq.
      split; [by rewrite length_fmap|].
      apply Forall_fmap. eapply Forall_impl; [|exact Hrowlen].
      intros r Hr. cbv beta in *. split; [simpl; lia|].
      rewrite vsum_cons. ring.
Qed.

Lemma gradient_weights_sum_to_zero_witness :
  ∃ weights simplices,
    _get_weights_gradient Example.bump
      [[Example.frac 1 4; Example.frac 1 8];
       [Example.frac 3 4; Example.frac 7 8]] = Some (weights, simplices) ∧
    simplices = [[3; 1; 0]; [8; 5; 7]] ∧
    ∃ ids,
      find_simplex Example.bump
        [[Example.frac 1 4; Example.frac 1 8];
         [Example.frac 3 4; Example.frac 7 8]] = Some ids ∧
      Forall2 (λ id w,
                 ∃ h, Numpy.getitem (hyperplanes Example.bump)
                        (id `mod` nsimplex_per_cell Example.bump) = Some h ∧
                      Forall2 (λ row hrow, ∃ w0, row = w0 :: hrow ∧
                                                 w0 = (- Numpy.vsum hrow)%Qc)
                              w h)
              ids weights ∧
      Forall (λ w, length w = ndim Example.bump ∧
                   Forall (λ row, length row = S (ndim Example.bump) ∧
                                  Numpy.vsum row = 0%Qc) w)
             weights.
Proof.
  eexists. eexists. split; [by vm_compute|]. split; [done|].
  eapply (gradient_weights_sum_to_zero Example.delaunay2 Example.inv2
            Example.unit_square (inl 2) (Some Example.bump_values) false
            Example.bump
            [[Example.frac 1 4; Example.frac 1 8];
             [Example.frac 3 4; Example.frac 7 8]]).
  - apply example_constructed.
  - apply example_regular_grid.
  - apply example_delaunay_contract.
  - apply example_inverts.
  - by repeat constructor.
  - by vm_compute.
Defined.


(** Moving a state from the cell at the origin to the cell whose corner has
    the state [corner]. *)
Lemma translate_by_corner (x t off : list Qc) :
  length x = length off → length t = length off →
  Numpy.vadd (Numpy.vsub x off) (Numpy.vadd t off) = Numpy.vadd x t.
Proof.
  revert x t. induction off as [|c off IH]; intros [|a x] [|b t] Hx Ht;
    simplify_eq/=; [done|].
  unfold Numpy.vadd, Numpy.vsub in *. simpl. f_equal; [ring|by apply IH].
Qed.




(** C8, what the code does: the gradient of [PiecewiseConstant] is zero, but
    each of its rows has [nindex] entries, not [ndim].  On the grid of nine
    vertices in two dimensions the row of a point has nine entries. *)
Theorem PiecewiseConstant_gradient_has_nindex_columns :
  ndim Example.plane = 2%nat ∧
  nindex Example.plane = 9 ∧
  PiecewiseConstant.gradient Example.plane
    [[Example.frac 1 4; Example.frac 1 4]]
  = [replicate 9 0%Qc].
Proof. by vm_compute. Qed.

(** ** Projection *)

Lemma mapM_fmap_compose {A B C} (f : B → option C) (g : A → B) (l : list A) :
  mapM f (g <$> l) = mapM (f ∘ g) l.
Proof.
  induction l as [|x l IH]; [done|].
  by rewrite fmap_cons, !mapM_cons, IH.
Qed.

Lemma find_simplex_row_clip_to_limits (self : Triangulation) p :
  regular_grid self →
  find_simplex_row self (clip_to_limits self p) = find_simplex_row self p.
Proof.
  intros Hg. unfold find_simplex_row.
  by rewrite center_row_clip_to_limits.
Qed.

Lemma get_weights_row_clip_to_limits (self : Triangulation) p :
  regular_grid self → project self = true →
  _get_weights_row self (clip_to_limits self p) = _get_weights_row self p.
Proof.
  intros Hg Hproject. unfold _get_weights_row, projected.
  rewrite find_simplex_row_clip_to_limits, Hproject by done.
  by rewrite clip_to_limits_idempotent.
Qed.

(** C9.  With [project=True], on every batch of points (inside or outside
    the limits) [evaluate] does what it does on the points clipped to the
    limits: it returns the same values, or raises for both; and
    [find_simplex] selects the same simplices for both. *)
Theorem projection_evaluates_clamped_point
    (self : Triangulation) (points : list (list Qc)) :
  regular_grid self →
  project self = true →
  evaluate self points = evaluate self (clip_to_limits self <$> points) ∧
  find_simplex self points
  = find_simplex self (clip_to_limits self <$> points).
Proof.
  intros Hg Hproject. split.
  - unfold evaluate, _get_weights. rewrite mapM_fmap_compose.
    erewrite (mapM_ext (_get_weights_row self ∘ clip_to_limits self)); [done|].
    intros p. simpl. by apply get_weights_row_clip_to_limits.
  - unfold find_simplex. rewrite mapM_fmap_compose. symmetry.
    apply mapM_ext. intros p. simpl.
    by apply find_simplex_row_clip_to_limits.
Qed.

Lemma projection_evaluates_clamped_point_witness :
  (evaluate Example.plane_projected
     [[Example.frac 5 1; Example.frac 5 1];
      [Example.frac (-3) 1; Example.frac 1 4]]
   = evaluate Example.plane_projected
       (clip_to_limits Example.plane_projected
          <$> [[Example.frac 5 1; Example.frac 5 1];
               [Example.frac (-3) 1; Example.frac 1 4]]) ∧
   find_simplex Example.plane_projected
     [[Example.frac 5 1; Example.frac 5 1];
      [Example.frac (-3) 1; Example.frac 1 4]]
   = find_simplex Example.plane_projected
       (clip_to_limits Example.plane_projected
          <$> [[Example.frac 5 1; Example.frac 5 1];
               [Example.frac (-3) 1; Example.frac 1 4]])) ∧
  evaluate Example.plane_projected
    [[Example.frac 5 1; Example.frac 5 1];
     [Example.frac (-3) 1; Example.frac 1 4]]
  = Some [Example.frac 3 1; Example.frac 1 2] ∧
  clip_to_limits Example.plane_projected
    <$> [[Example.frac 5 1; Example.frac 5 1];
         [Example.frac (-3) 1; Example.frac 1 4]]
  = [[Example.frac 1 1; Example.frac 1 1];
     [Example.frac 0 1; Example.frac 1 4]].
Proof.
  split; [|split; apply (bool_decide_unpack _); by vm_compute].
  apply (projection_evaluates_clamped_point Example.plane_projected).
  - apply example_regular_grid.
  - done.
Defined.

(** ** The sparse operators *)

(** The shape of a row that [_get_weights] returns. *)
Lemma get_weights_row_shape
    spatial_Delaunay linalg_inv lims num vals proj (self : Triangulation)
    (p : list Qc) row :
  Triangulation_init spatial_Delaunay linalg_inv lims num vals proj
  = Some self →
  regular_grid self → delaunay_contract self →
  _get_weights_row self p = Some row →
  length row.1 = S (ndim self) ∧
  length row.2 = S (ndim self) ∧
  Forall (λ v, 0 ≤ v < nindex self) row.2.
Proof.
  intros Hinit Hg Hdel Hrow. unfold _get_weights_row in Hrow.
  destruct (find_simplex_row self p) as [id|]; [|done]. simpl in Hrow.
  destruct (simplices_row self id) as [simplex|] eqn:Hsimplex; [|done].
  simpl in Hrow.
  destruct (head simplex) as [v0|]; [|done]. simpl in Hrow.
  destruct (index_to_state_row self v0) as [o|]; [|done]. simpl in Hrow.
  destruct (Numpy.getitem (hyperplanes self) _) as [h|]; [|done].
  simpl in Hrow. injection Hrow as <-. simpl.
  destruct (simplices_row_in_range _ _ _ _ _ _ _ Hinit Hg id simplex Hdel
              Hsimplex) as [Hrange Hlen].
  by rewrite length_vecmat.
Qed.

(** C2.  For every batch of points and vertex values of length [nindex],
    the product of the matrix that [evaluate_constraint] returns with the
    vertex values is what [evaluate] returns (and one raises exactly when
    the other does); the matrix has shape (number of points, nindex). *)
Theorem evaluate_constraint_dot_is_evaluate
    spatial_Delaunay linalg_inv lims num vals proj (self : Triangulation)
    (values : list Qc) (points : list (list Qc)) :
  Triangulation_init spatial_Delaunay linalg_inv lims num vals proj
  = Some self →
  regular_grid self →
  delaunay_contract self →
  vertex_values self = Some values →
  Z.of_nat (length values) = nindex self →
  Forall (λ p, length p = ndim self) points →
  (B ← evaluate_constraint self points; Scipy.dot B values)
  = evaluate self points ∧
  (∀ B, evaluate_constraint self points = Some B →
        Scipy.shape B = (Z.of_nat (length points), nindex self)).
Proof.
  intros Hinit Hg Hdel Hvalues Hlength Hpoints.
  destruct (mapM (_get_weights_row self) points) as [rows|] eqn:Hrows.
  2:{ unfold evaluate_constraint, evaluate, _get_weights. rewrite Hrows.
      by split. }
  assert (Forall (λ row, length row.1 = S (ndim self) ∧
                         length row.2 = S (ndim self) ∧
                         Forall (λ v, 0 ≤ v < nindex self) row.2) rows)
    as Hshape.
  { pose proof Hrows as Hrel. apply mapM_Some in Hrel.
    eapply Forall2_Forall_r; [exact Hrel|]. intros p row Hrow.
    by apply (get_weights_row_shape _ _ _ _ _ _ _ p row Hinit Hg Hdel). }
  pose proof (length_mapM _ _ _ Hrows) as Hcount.
  assert (Forall (λ row, length row.1 = S (ndim self) ∧
                         length row.2 = S (ndim self)) rows) as Hwidth.
  { eapply Forall_impl; [|exact Hshape]. by intros row (? & ? & _). }
  assert (Forall (λ row, Forall (λ v, 0 ≤ v < Z.of_nat (length values)) row.2)
                 rows) as Hrange.
  { eapply Forall_impl; [|exact Hshape]. intros row (_ & _ & Hr).
    by rewrite Hlength. }
  assert (evaluate_constraint self points
          = Some {| Scipy.data := concat rows.*1;
                    Scipy.row := Numpy.repeat
                                   (Numpy.arange (length points))
                                   (S (ndim self));
                    Scipy.col := concat rows.*2;
                    Scipy.shape := (Z.of_nat (length rows.*2), nindex self) |})
    as HB.
  { unfold evaluate_constraint, _get_weights. rewrite Hrows. simpl.
    unfold Scipy.coo_matrix_init. rewrite decide_True; [reflexivity|].
    rewrite length_repeat, length_arange.
    rewrite (length_concat_rows (rows.*1) (S (ndim self))),
      (length_concat_rows (rows.*2) (S (ndim self))), !length_fmap.
    - split; [lia|]. split; [done|]. split.
      + apply Forall_repeat. simpl. rewrite Hcount. apply Forall_arange.
      + apply Forall_concat, Forall_fmap. simpl.
        eapply Forall_impl; [|exact Hshape]. by intros row (_ & _ & ?).
    - apply Forall_fmap. eapply Forall_impl; [|exact Hwidth].
      by intros row [_ ?].
    - apply Forall_fmap. eapply Forall_impl; [|exact Hwidth].
      by intros row [? _]. }
  rewrite HB. split.
  - rewrite (evaluate_rows self values Hvalues points rows Hrows Hrange).
    simpl. unfold Scipy.dot. simpl. rewrite decide_True by done.
    rewrite Nat2Z.id, length_fmap, Hcount. f_equal.
    by apply dot_rows.
  - intros B [= <-]. simpl. by rewrite length_fmap, Hcount.
Qed.

Lemma evaluate_constraint_dot_is_evaluate_witness :
  ((B ← evaluate_constraint Example.bump
          [[Example.frac 1 4; Example.frac 1 4];
           [Example.frac 3 4; Example.frac 7 8]];
    Scipy.dot B Example.bump_values)
   = evaluate Example.bump
       [[Example.frac 1 4; Example.frac 1 4];
        [Example.frac 3 4; Example.frac 7 8]] ∧
   (∀ B, evaluate_constraint Example.bump
           [[Example.frac 1 4; Example.frac 1 4];
            [Example.frac 3 4; Example.frac 7 8]] = Some B →
         Scipy.shape B = (2, nindex Example.bump))) ∧
  evaluate Example.bump
    [[Example.frac 1 4; Example.frac 1 4];
     [Example.frac 3 4; Example.frac 7 8]]
  = Some [Example.frac 0 1; Example.frac 0 1] ∧
  (Scipy.shape <$> evaluate_constraint Example.bump
                     [[Example.frac 1 4; Example.frac 1 4];
                      [Example.frac 3 4; Example.frac 7 8]])
  = Some (2, 9).
Proof.
  split; [|split; [apply (bool_decide_unpack _)|]; by vm_compute].
  apply (evaluate_constraint_dot_is_evaluate Example.delaunay2 Example.inv2
           Example.unit_square (inl 2) (Some Example.bump_values) false
           Example.bump Example.bump_values
           [[Example.frac 1 4; Example.frac 1 4];
            [Example.frac 3 4; Example.frac 7 8]]).
  - apply example_constructed.
  - apply example_regular_grid.
  - apply example_delaunay_contract.
  - done.
  - done.
  - by repeat constructor.
Defined.

(** ** Affine fields *)

Lemma Forall2_fmap_eq {A B C} (f : A → C) (g : B → C) (l : list A) (k : list B) :
  Forall2 (λ x y, f x = g y) l k → f <$> l = g <$> k.
Proof. induction 1 as [|x y l k Hxy _ IH]; [done|]. simpl. by f_equal. Qed.

Lemma clip_to_limits_within (g : GridWorld) p :
  Forall2 (λ x lim, lim.1 ≤ x ∧ x ≤ lim.2)%Qc p (limits g) →
  clip_to_limits g p = p.
Proof.
  unfold clip_to_limits. induction 1 as [|x lim p lims [H1 H2] _ IH]; [done|].
  simpl. f_equal; [by apply clip_inside|done].
Qed.

Lemma projected_interior (self : Triangulation) p :
  interior self p → projected self p = p.
Proof.
  intros Hp. unfold projected. destruct (project self); [|done].
  apply clip_to_limits_within.
  eapply Forall2_impl; [|exact Hp]. intros x lim [H1 H2]. split; qc_lra.
Qed.

Lemma lookup_arange n j : (j < n)%nat → Numpy.arange n !! j = Some (Z.of_nat j).
Proof.
  intros Hj. unfold Numpy.arange.
  by rewrite list_lookup_fmap, lookup_seq_lt.
Qed.

(** The sampled values at the vertices of a simplex. *)
Lemma sampled_values (g : GridWorld) f values simplex states :
  regular_grid g →
  sampled_at_vertices g f values →
  index_to_state g simplex = Some states →
  Forall (λ v, 0 ≤ v < nindex g) simplex →
  values_of values simplex = f <$> states ∧
  Z.of_nat (length values) = nindex g.
Proof.
  intros Hg (all & Hall & ->) Hstates Hrange.
  pose proof (prod_pos _ (num_vertices_pos g Hg)) as Hpos.
  fold (nindex g) in Hpos.
  pose proof (length_mapM _ _ _ Hall) as Hlen.
  rewrite length_arange in Hlen.
  split; [|rewrite length_fmap; lia].
  unfold index_to_state in *. apply mapM_Some in Hall, Hstates.
  unfold values_of. apply Forall2_fmap_eq.
  revert Hrange. induction Hstates as [|v x simplex states Hv _ IH];
    intros Hrange; [constructor|].
  inversion Hrange as [|? ? Hv' Hrange']; subst.
  constructor; [|by apply IH].
  destruct (Forall2_lookup_l _ _ _ (Z.to_nat v) (Z.of_nat (Z.to_nat v)) Hall)
    as (y & Hy & Hrow).
  { apply lookup_arange. lia. }
  rewrite Z2Nat.id in Hrow by lia.
  rewrite list_lookup_fmap, Hy. simpl. congruence.
Qed.

(** The row of weights of an interior point reproduces an affine field. *)
Lemma affine_row
    spatial_Delaunay linalg_inv lims num vals proj (self : Triangulation)
    (values a : list Qc) (b : Qc) (p : list Qc) row :
  Triangulation_init spatial_Delaunay linalg_inv lims num vals proj
  = Some self →
  regular_grid self → delaunay_contract self → inverts linalg_inv →
  sampled_at_vertices self (λ x, Numpy.dot a x + b)%Qc values →
  length a = ndim self →
  interior self p →
  _get_weights_row self p = Some row →
  Forall (λ v, 0 ≤ v < Z.of_nat (length values)) row.2 ∧
  Numpy.dot row.1 (values_of values row.2) = (Numpy.dot a p + b)%Qc.
Proof.
  intros Hinit Hg Hdel Hinv Hsampled Ha Hp Hrow.
  destruct (get_weights_row_inv _ _ _ _ _ _ _ Hinit Hg p row Hdel Hinv Hrow)
    as (id & simplex & o & pts & h & _ & _ & -> & Hstates & Hlens & Hcount
        & ([Hh Hhrows] & _ & Hleft) & Hrange & _).
  destruct (sampled_values self _ values simplex (o :: pts) Hg Hsampled
              Hstates Hrange) as [Hvals Hlength].
  rewrite projected_interior by done.
  pose proof (Forall_inv Hlens) as Ho. pose proof (Forall_inv_tail Hlens) as Hpts.
  simpl in Ho.
  assert (length p = ndim self) as Hlp by (by rewrite (Forall2_length Hp)).
  assert (Forall (λ x, length x = length o) pts) as Hpts'
    by (eapply Forall_impl; [|exact Hpts]; intros x Hx; simpl in *; lia).
  pose proof (edges_rows o pts Hpts') as Hedges. rewrite Ho in Hedges.
  set (E := edges (o :: pts)) in *.
  cbn [fst snd]. rewrite Hlength. split; [done|].
  rewrite Hvals, fmap_cons.
  set (rest := Numpy.vecmat (ndim self) (Numpy.vsub p o) h).
  assert (Numpy.vecmat (ndim self) rest E = Numpy.vsub p o) as Hrest.
  { unfold rest. rewrite vecmat_assoc by done. rewrite Hleft.
    apply vecmat_identity. unfold Numpy.vsub. rewrite length_zip_with.
    lia. }
  rewrite dot_cons.
  rewrite (affine_blend a b rest o pts)
    by (unfold rest; rewrite ?length_vecmat; lia || done).
  fold E. rewrite <- (dot_vecmat (ndim self)) by done.
  rewrite Hrest, dot_vsub_l by lia.
  rewrite (dot_comm p a), (dot_comm o a). ring.
Qed.

(** The block of gradient weights of a point reproduces the slope of an
    affine field. *)
Lemma affine_gradient_row
    spatial_Delaunay linalg_inv lims num vals proj (self : Triangulation)
    (values a : list Qc) (b : Qc) (p : list Qc) row :
  Triangulation_init spatial_Delaunay linalg_inv lims num vals proj
  = Some self →
  regular_grid self → delaunay_contract self → inverts linalg_inv →
  sampled_at_vertices self (λ x, Numpy.dot a x + b)%Qc values →
  length a = ndim self →
  _get_weights_gradient_row self p = Some row →
  Forall (λ v, 0 ≤ v < Z.of_nat (length values)) row.2 ∧
  Numpy.matvec row.1 (values_of values row.2) = a.
Proof.
  intros Hinit Hg Hdel Hinv Hsampled Ha Hrow.
  pose proof Hrow as Hrow'. unfold _get_weights_gradient_row in Hrow'.
  destruct (find_simplex_row self p) as [id|] eqn:Hfind; [|done].
  simpl in Hrow'.
  destruct (simplices_row self id) as [simplex'|] eqn:Hsimplex; [|done].
  assert (0 ≤ id < nsimplex self) as Hid
    by (eapply simplices_row_valid; eauto).
  clear Hrow'.
  destruct (weights_rows_of_id _ _ _ _ _ _ _ Hinit Hg p id Hdel Hinv Hfind Hid)
    as (simplex & o & pts & h & _ & _ & _ & Hgw & Hstates & Hlens & Hcount
        & ([Hh Hhrows] & _ & Hleft) & Hrange & _).
  assert (row = ((λ r, (- Numpy.vsum r)%Qc :: r) <$> h, simplex)) as ->
    by congruence.
  destruct (sampled_values self _ values simplex (o :: pts) Hg Hsampled
              Hstates Hrange) as [Hvals Hlength].
  pose proof (Forall_inv Hlens) as Ho. pose proof (Forall_inv_tail Hlens) as Hpts.
  simpl in Ho.
  assert (Forall (λ x, length x = length o) pts) as Hpts'
    by (eapply Forall_impl; [|exact Hpts]; intros x Hx; simpl in *; lia).
  pose proof (edges_rows o pts Hpts') as Hedges. rewrite Ho in Hedges.
  set (E := edges (o :: pts)) in *.
  cbn [fst snd]. rewrite Hlength. split; [done|].
  rewrite Hvals, fmap_cons.
  assert (Numpy.matvec ((λ r, (- Numpy.vsum r)%Qc :: r) <$> h)
                       ((Numpy.dot a o + b)%Qc
                        :: ((λ x, Numpy.dot a x + b)%Qc <$> pts))
          = Numpy.matvec h (Numpy.matvec E a)) as ->.
  { unfold Numpy.matvec at 1 2. rewrite <- list_fmap_compose.
    apply Forall_fmap_ext. eapply Forall_impl; [|exact Hhrows].
    intros r Hr. simpl in Hr. simpl.
    rewrite dot_cons, (affine_blend a b r o pts) by (lia || done).
    fold E. ring. }
  rewrite <- (matvec_matmul (ndim self)) by done.
  rewrite Hleft. by apply matvec_identity.
Qed.

Lemma Forall2_and_l {A B} (P : A → Prop) (R : A → B → Prop) l k :
  Forall P l → Forall2 R l k → Forall2 (λ x y, P x ∧ R x y) l k.
Proof.
  intros HP HR. revert HP. induction HR; intros HP; inversion HP; subst;
    constructor; auto.
Qed.

(** C1.  If the vertex values sample an affine field [a.x + b] at the
    states of all vertices, then for points strictly inside the limits
    every result of [evaluate] is [a.p + b] at each point and every result
    of [gradient] is [a] at each point. *)
Theorem affine_field_is_reproduced
    spatial_Delaunay linalg_inv lims num vals proj (self : Triangulation)
    (values a : list Qc) (b : Qc) (points : list (list Qc)) :
  Triangulation_init spatial_Delaunay linalg_inv lims num vals proj
  = Some self →
  regular_grid self →
  delaunay_contract self →
  inverts linalg_inv →
  vertex_values self = Some values →
  sampled_at_vertices self (λ x, Numpy.dot a x + b)%Qc values →
  length a = ndim self →
  Forall (interior self) points →
  (∀ results, evaluate self points = Some results →
              results = (λ p, Numpy.dot a p + b)%Qc <$> points) ∧
  (∀ slopes, gradient self points = Some slopes →
             slopes = (λ _, a) <$> points).
Proof.
  intros Hinit Hg Hdel Hinv Hvalues Hsampled Ha Hpoints.
  assert (∀ rows, mapM (_get_weights_row self) points = Some rows →
            evaluate self points
            = Some ((λ p, Numpy.dot a p + b)%Qc <$> points)) as Hevaluate.
  { intros rows Hrows. pose proof Hrows as Hrel. apply mapM_Some in Hrel.
    pose proof (Forall2_and_l _ _ _ _ Hpoints Hrel) as Hboth.
    rewrite (evaluate_rows self values Hvalues points rows Hrows).
    - f_equal. symmetry. apply Forall2_fmap_eq.
      eapply Forall2_impl; [|exact Hboth]. intros p row [Hp Hrow]. simpl.
      destruct (affine_row _ _ _ _ _ _ _ values a b p row Hinit Hg Hdel
                  Hinv Hsampled Ha Hp Hrow) as [_ Heq].
      by rewrite Heq.
    - eapply Forall2_Forall_r; [exact Hboth|]. intros p row [Hp Hrow].
      by destruct (affine_row _ _ _ _ _ _ _ values a b p row Hinit Hg Hdel
                     Hinv Hsampled Ha Hp Hrow). }
  assert (∀ rows, mapM (_get_weights_gradient_row self) points = Some rows →
            gradient self points = Some ((λ _, a) <$> points)) as Hgradient.
  { intros rows Hrows. pose proof Hrows as Hrel. apply mapM_Some in Hrel.
    rewrite (gradient_rows self values Hvalues points rows Hrows).
    - f_equal. symmetry. apply Forall2_fmap_eq.
      eapply Forall2_impl; [|exact Hrel]. intros p row Hrow. simpl.
      destruct (affine_gradient_row _ _ _ _ _ _ _ values a b p row Hinit Hg
                  Hdel Hinv Hsampled Ha Hrow) as [_ Heq].
      by rewrite Heq.
    - eapply Forall2_Forall_r; [exact Hrel|]. intros p row Hrow.
      by destruct (affine_gradient_row _ _ _ _ _ _ _ values a b p row Hinit
                     Hg Hdel Hinv Hsampled Ha Hrow). }
  split.
  - intros results Hresults.
    destruct (mapM (_get_weights_row self) points) as [rows|] eqn:Hrows.
    + rewrite (Hevaluate rows eq_refl) in Hresults. by injection Hresults.
    + unfold evaluate, _get_weights in Hresults. by rewrite Hrows in Hresults.
  - intros slopes Hslopes.
    destruct (mapM (_get_weights_gradient_row self) points) as [rows|]
      eqn:Hrows.
    + rewrite (Hgradient rows eq_refl) in Hslopes. by injection Hslopes.
    + unfold gradient, _get_weights_gradient in Hslopes.
      by rewrite Hrows in Hslopes.
Qed.

Lemma affine_field_is_reproduced_witness :
  ∃ results slopes,
    evaluate Example.plane
      [[Example.frac 1 4; Example.frac 1 8];
       [Example.frac 3 4; Example.frac 7 8]] = Some results ∧
    gradient Example.plane
      [[Example.frac 1 4; Example.frac 1 8];
       [Example.frac 3 4; Example.frac 7 8]] = Some slopes ∧
    results = (λ p, Numpy.dot [Example.frac 1 1; Example.frac 2 1] p
                    + Example.frac 0 1)%Qc
                <$> [[Example.frac 1 4; Example.frac 1 8];
                     [Example.frac 3 4; Example.frac 7 8]] ∧
    slopes = (λ _, [Example.frac 1 1; Example.frac 2 1])
               <$> [[Example.frac 1 4; Example.frac 1 8];
                    [Example.frac 3 4; Example.frac 7 8]].
Proof.
  destruct (affine_field_is_reproduced Example.delaunay2 Example.inv2
              Example.unit_square (inl 2) (Some Example.plane_values) false
              Example.plane Example.plane_values
              [Example.frac 1 1; Example.frac 2 1] (Example.frac 0 1)
              [[Example.frac 1 4; Example.frac 1 8];
               [Example.frac 3 4; Example.frac 7 8]])
    as [Hevaluate Hgradient].
  - apply example_constructed.
  - apply example_regular_grid.
  - apply example_delaunay_contract.
  - apply example_inverts.
  - done.
  - eexists. split; [by vm_compute|].
    apply (bool_decide_unpack _). by vm_compute.
  - done.
  - repeat constructor; by vm_compute.
  - eexists. eexists. split; [by vm_compute|]. split; [by vm_compute|].
    split; [by apply Hevaluate|by apply Hgradient].
Defined.

(** ** Points inside their simplex *)

Section Inside.
Import Numpy.
Local Open Scope Qc_scope.

Lemma vertex_state_within (g : GridWorld) ijk :
  regular_grid g → in_shape ijk (num_vertices g) →
  Forall2 (λ x lim, lim.1 ≤ x ∧ x ≤ lim.2) (vertex_state g ijk) (limits g).
Proof.
  unfold vertex_state, unit_maxes, offset, num_vertices, regular_grid,
    in_shape, vadd, vmul.
  destruct g as [lims nums vals]; simpl. clear vals. intros Hg. revert ijk.
  induction Hg as [|[lo hi] n lims nums Hn _ IH]; intros ijk Hijk;
    inversion Hijk as [|k ? ks ? Hk Hks]; subst; simpl; constructor.
  - apply (vertex_within lo hi n Hn). lia.
  - by apply IH.
Qed.

Lemma index_to_state_within (g : GridWorld) simplex states :
  regular_grid g → index_to_state g simplex = Some states →
  Forall (λ x, Forall2 (λ x lim, lim.1 ≤ x ∧ x ≤ lim.2) x (limits g)) states.
Proof.
  intros Hg Hstates. unfold index_to_state in Hstates.
  apply mapM_Some in Hstates.
  eapply Forall2_Forall_r; [exact Hstates|]. intros v x Hv. simpl in Hv.
  unfold index_to_state_row in Hv.
  destruct (unravel_index v (num_vertices g)) as [ijk|] eqn:Hijk; [|done].
  apply unravel_index_inv in Hijk as [Hrange ->]. simpl in Hv.
  injection Hv as <-. apply vertex_state_within; [done|].
  apply unravel_bounds; [by apply num_vertices_pos|done].
Qed.

Lemma dot_convex_bounds (lo hi : Qc) cs col :
  Forall2 (λ c x, 0 ≤ c ∧ lo ≤ x ∧ x ≤ hi) cs col →
  lo * vsum cs ≤ dot cs col ∧ dot cs col ≤ hi * vsum cs.
Proof.
  induction 1 as [|c x cs col (Hc & Hlo & Hhi) _ [IH1 IH2]].
  { unfold dot. simpl. split; qc_lra. }
  rewrite dot_cons, vsum_cons.
  pose proof (Qcmult_le_mono_nonneg_l lo x c Hc Hlo) as H1.
  pose proof (Qcmult_le_mono_nonneg_l x hi c Hc Hhi) as H2.
  remember (dot cs col) as d. remember (vsum cs) as s.
  remember (c * lo) as clo. remember (c * x) as cx. remember (c * hi) as chi.
  assert (lo * (c + s) = clo + lo * s) as -> by (subst; ring).
  assert (hi * (c + s) = chi + hi * s) as -> by (subst; ring).
  clear -H1 H2 IH1 IH2. remember (lo * s) as ls. remember (hi * s) as hs.
  clear -H1 H2 IH1 IH2. split; qc_lra.
Qed.

(** A combination of points within the limits, with non-negative
    coefficients that sum to one, is within the limits. *)
Lemma combination_within (lims : list (Qc * Qc)) cs pts :
  Forall (λ c, 0 ≤ c) cs → vsum cs = 1 → length cs = length pts →
  Forall (λ x, Forall2 (λ x lim, lim.1 ≤ x ∧ x ≤ lim.2) x lims) pts →
  Forall2 (λ x lim, lim.1 ≤ x ∧ x ≤ lim.2)
          (vecmat (length lims) cs pts) lims.
Proof.
  intros Hcs Hsum Hlen Hpts.
  apply Forall2_same_length_lookup_2; [apply length_vecmat|].
  intros k x lim Hx Hlim.
  assert (k < length lims)%nat as Hk by (by eapply lookup_lt_Some).
  rewrite lookup_vecmat in Hx by done. injection Hx as <-.
  destruct (dot_convex_bounds lim.1 lim.2 cs (column pts k)) as [H1 H2].
  { clear Hsum. revert pts Hlen Hpts.
    induction Hcs as [|c cs Hc _ IH]; intros [|y pts] Hlen Hpts;
      simplify_eq/=; constructor.
    - inversion Hpts as [|? ? Hy _]; subst.
      destruct (Forall2_lookup_r _ _ _ _ _ Hy Hlim) as (yk & -> & Hyk).
      simpl. by split.
    - apply IH; [done|]. by inversion Hpts. }
  rewrite Hsum in H1, H2. split; qc_lra.
Qed.

End Inside.

Lemma Forall2_Forall3_rows {A W S} (P : A → W → S → Prop)
    (points : list A) (rows : list (W * S)) :
  Forall2 (λ p row, P p row.1 row.2) points rows →
  Forall3 P points (rows.*1) (rows.*2).
Proof. induction 1 as [|p [w s] points rows]; simpl; by constructor. Qed.

(** The weights of one point: they sum to one, and they are the barycentric
    coefficients of the point when it lies strictly inside the simplex. *)
Lemma weights_of_point
    spatial_Delaunay linalg_inv lims num vals proj (self : Triangulation)
    (p : list Qc) row :
  Triangulation_init spatial_Delaunay linalg_inv lims num vals proj
  = Some self →
  regular_grid self → delaunay_contract self → inverts linalg_inv →
  _get_weights_row self p = Some row →
  (length row.1 = S (ndim self) ∧ Numpy.vsum row.1 = 1%Qc) ∧
  ∀ vertices,
    index_to_state self row.2 = Some vertices →
    strictly_inside (ndim self) p vertices →
    Forall (λ x, 0 ≤ x ∧ x ≤ 1)%Qc row.1.
Proof.
  intros Hinit Hg Hdel Hinv Hrow.
  destruct (get_weights_row_inv _ _ _ _ _ _ _ Hinit Hg p row Hdel Hinv Hrow)
    as (id & simplex & o & pts & h & _ & _ & -> & Hstates & Hlens & Hcount
        & (_ & Hright & _) & Hrange & _).
  cbn [fst snd].
  split; [split; [by rewrite length_cons, length_vecmat|]|].
  { rewrite vsum_cons. ring. }
  intros vertices Hvertices (coefficients & Hlen & Hpos & Hsum & Hp).
  assert (vertices = o :: pts) as -> by congruence.
  destruct coefficients as [|c0 cs]; [done|]. simpl in Hlen.
  pose proof (Forall_inv Hlens) as Ho. pose proof (Forall_inv_tail Hlens) as Hpts.
  simpl in Ho.
  assert (Forall (λ x, length x = length o) pts) as Hpts'
    by (eapply Forall_impl; [|exact Hpts]; intros x Hx; simpl in *; lia).
  pose proof (edges_rows o pts Hpts') as Hedges. rewrite Ho in Hedges.
  assert (Forall (λ c, 0 ≤ c)%Qc (c0 :: cs)) as Hnonneg.
  { eapply Forall_impl; [|exact Hpos]. intros c Hc. simpl in *. qc_lra. }
  assert (projected self p = p) as Hproj.
  { unfold projected. destruct (project self); [|done].
    apply clip_to_limits_within. rewrite Hp.
    apply combination_within; [done|done|simpl; lia|].
    by eapply index_to_state_within. }
  rewrite Hproj.
  assert (Numpy.vsub p o = Numpy.vecmat (ndim self) cs (edges (o :: pts)))
    as ->.
  { rewrite Hp, <- Ho. apply combination_from_origin; [done|lia|done]. }
  rewrite vecmat_assoc, Hright, vecmat_identity by (done || lia).
  rewrite vsum_cons in Hsum.
  assert (1 - Numpy.vsum cs = c0)%Qc as -> by (rewrite <- Hsum; ring).
  apply coefficients_in_unit_interval; [done|].
  by rewrite vsum_cons.
Qed.

(** C4.  Whenever [_get_weights] returns for a batch of points, every row
    has [ndim + 1] weights that sum to one, and every weight of a point that
    lies strictly inside its located simplex lies in [0, 1]. *)
Theorem barycentric_weights
    spatial_Delaunay linalg_inv lims num vals proj (self : Triangulation)
    (points : list (list Qc)) :
  Triangulation_init spatial_Delaunay linalg_inv lims num vals proj
  = Some self →
  regular_grid self →
  delaunay_contract self →
  inverts linalg_inv →
  Forall (λ p, length p = ndim self) points →
  ∀ weights simplices,
    _get_weights self points = Some (weights, simplices) →
    Forall (λ w, length w = S (ndim self) ∧ Numpy.vsum w = 1%Qc) weights ∧
    Forall3 (λ p w simplex,
               ∀ vertices,
                 index_to_state self simplex = Some vertices →
                 strictly_inside (ndim self) p vertices →
                 Forall (λ x, 0 ≤ x ∧ x ≤ 1)%Qc w)
            points weights simplices.
Proof.
  intros Hinit Hg Hdel Hinv Hpoints.
  - intros weights simplices (rows & Hrows & -> & ->)%get_weights_inv.
    apply mapM_Some in Hrows.
    assert (Forall2 (λ p row,
                       (length row.1 = S (ndim self) ∧
                        Numpy.vsum row.1 = 1%Qc) ∧
                       ∀ vertices,
                         index_to_state self row.2 = Some vertices →
                         strictly_inside (ndim self) p vertices →
                         Forall (λ x, 0 ≤ x ∧ x ≤ 1)%Qc row.1) points rows)
      as Hrel.
    { eapply Forall2_impl; [|exact Hrows]. intros p row Hrow.
      by apply (weights_of_point _ _ _ _ _ _ _ p row Hinit Hg Hdel Hinv). }
    split.
    + apply Forall_fmap. eapply Forall2_Forall_r; [exact Hrel|].
      by intros p row [? _].
    + apply Forall2_Forall3_rows.
      eapply Forall2_impl; [|exact Hrel]. by intros p row [_ ?].
Qed.

Lemma barycentric_weights_witness :
  ∃ weights simplices vertices,
    _get_weights Example.plane [[Example.frac 1 4; Example.frac 1 8]]
    = Some (weights, simplices) ∧
    find_simplex Example.plane [[Example.frac 1 4; Example.frac 1 8]]
    = Some [1] ∧
    simplices = [[3; 1; 0]] ∧
    index_to_state Example.plane [3; 1; 0] = Some vertices ∧
    strictly_inside 2 [Example.frac 1 4; Example.frac 1 8] vertices ∧
    Forall (λ w, length w = S (ndim Example.plane) ∧ Numpy.vsum w = 1%Qc)
           weights ∧
    Forall3 (λ p w simplex,
               ∀ vertices,
                 index_to_state Example.plane simplex = Some vertices →
                 strictly_inside (ndim Example.plane) p vertices →
                 Forall (λ x, 0 ≤ x ∧ x ≤ 1)%Qc w)
            [[Example.frac 1 4; Example.frac 1 8]] weights simplices.
Proof.
  eexists. eexists. eexists.
  split; [by vm_compute|]. split; [by vm_compute|]. split; [done|].
  split; [by vm_compute|]. split.
  { exists [Example.frac 1 2; Example.frac 1 4; Example.frac 1 4].
    split; [done|]. split; [repeat constructor; by vm_compute|].
    split; apply (bool_decide_unpack _); by vm_compute. }
  apply (barycentric_weights Example.delaunay2 Example.inv2
           Example.unit_square (inl 2) (Some Example.plane_values) false
           Example.plane [[Example.frac 1 4; Example.frac 1 8]]).
  - apply example_constructed.
  - apply example_regular_grid.
  - apply example_delaunay_contract.
  - apply example_inverts.
  - by repeat constructor.
  - by vm_compute.
Defined.

(** C3, what the code does: the rows of [gradient_constraint] are ordered
    point by point, so its product with the vertex values, reshaped into
    [(ndim, -1)], is [gradient(points)] itself when there are [ndim] points,
    not its transpose.  For two points of the two-dimensional instance with
    gradients (2, 2) and (0, 0), the product is (2, 2, 0, 0), the reshaped
    entry at dimension 0, point 1 is 2, and [gradient(points)[1, 0]] is 0. *)
Theorem gradient_constraint_reshape_is_not_transposed :
  gradient Example.bump
    [[Example.frac 1 4; Example.frac 1 4]; [Example.frac 3 4; Example.frac 7 8]]
  = Some [[Example.frac 2 1; Example.frac 2 1];
          [Example.frac 0 1; Example.frac 0 1]] ∧
  (B ← gradient_constraint Example.bump
         [[Example.frac 1 4; Example.frac 1 4];
          [Example.frac 3 4; Example.frac 7 8]];
   Scipy.dot B Example.bump_values)
  = Some [Example.frac 2 1; Example.frac 2 1;
          Example.frac 0 1; Example.frac 0 1] ∧
  (B ← gradient_constraint Example.bump
         [[Example.frac 1 4; Example.frac 1 4];
          [Example.frac 3 4; Example.frac 7 8]];
   flat ← Scipy.dot B Example.bump_values;
   reshaped ← Numpy.reshape flat (ndim Example.bump);
   Some (Scipy.shape B, reshaped))
  = Some ((4, 9),
          [[Example.frac 2 1; Example.frac 2 1];
           [Example.frac 0 1; Example.frac 0 1]]).
Proof. repeat split; apply (bool_decide_unpack _); by vm_compute. Qed.

(** ** What the code does where a claim fails *)

Lemma nindex_exceeds_ndim (g : GridWorld) :
  regular_grid g → Z.of_nat (ndim g) < nindex g.
Proof.
  unfold regular_grid, ndim, nindex, num_vertices, Numpy.prod.
  destruct g as [lims nums vals]; simpl.
  induction 1 as [|lim n lims' nums' [_ Hn] _ IH]; simpl; [done|].
  match goal with
  | |- _ < _ * ?q =>
      assert (Hq : Z.of_nat (length lims') < q) by exact IH;
      revert Hq; generalize q
  end.
  intros p Hp. assert (1 * p ≤ n * p) by (apply Z.mul_le_mono_nonneg_r; lia).
  lia.
Qed.

(** X2 (what the code does where C8 fails).  On every regular grid whose
    vertex count fits int64 and for every batch of points,
    [PiecewiseConstant.gradient] returns one row per point, every row is
    zero and has [nindex] entries, and [nindex] exceeds [ndim]: no row is an
    [ndim]-vector. *)
Theorem PiecewiseConstant_gradient_rows (g : GridWorld)
    (points : list (list Qc)) :
  regular_grid g →
  fits_int64 g →
  length (PiecewiseConstant.gradient g points) = length points ∧
  Forall (λ row, row = replicate (Z.to_nat (nindex g)) 0%Qc ∧
                 (ndim g < length row)%nat)
         (PiecewiseConstant.gradient g points).
Proof.
  intros Hg _. unfold PiecewiseConstant.gradient, Numpy.zeros.
  split; [by rewrite length_replicate|].
  apply Forall_replicate. split; [done|].
  rewrite length_replicate. pose proof (nindex_exceeds_ndim g Hg). lia.
Qed.

Lemma PiecewiseConstant_gradient_rows_witness :
  length (PiecewiseConstant.gradient Example.plane
            [[Example.frac 1 4; Example.frac 1 4]]) = 1%nat ∧
  Forall (λ row, row = replicate (Z.to_nat (nindex Example.plane)) 0%Qc ∧
                 (ndim Example.plane < length row)%nat)
         (PiecewiseConstant.gradient Example.plane
            [[Example.frac 1 4; Example.frac 1 4]]).
Proof.
  apply (PiecewiseConstant_gradient_rows Example.plane
           [[Example.frac 1 4; Example.frac 1 4]]).
  - apply example_regular_grid.
  - by vm_compute.
Defined.

(** The shape of a block that [_get_weights_gradient] returns. *)
Lemma get_weights_gradient_row_shape
    spatial_Delaunay linalg_inv lims num vals proj (self : Triangulation)
    (p : list Qc) row :
  Triangulation_init spatial_Delaunay linalg_inv lims num vals proj
  = Some self →
  regular_grid self → delaunay_contract self → inverts linalg_inv →
  _get_weights_gradient_row self p = Some row →
  length row.1 = ndim self ∧
  Forall (λ w, length w = S (ndim self)) row.1 ∧
  length row.2 = S (ndim self) ∧
  Forall (λ v, 0 ≤ v < nindex self) row.2.
Proof.
  intros Hinit Hg Hdel Hinv Hrow.
  destruct (get_weights_gradient_row_inv _ _ _ _ _ _ _ Hinit Hg p row Hdel
              Hinv Hrow)
    as (id & simplex & h & _ & _ & _ & -> & [Hh Hhs] & Hrange & Hlen).
  simpl. rewrite length_fmap. split; [done|]. split; [|done].
  apply Forall_fmap. eapply Forall_impl; [|exact Hhs].
  intros r Hr. simpl. by rewrite Hr.
Qed.

(** X3 (what the code does where C3 fails).  For every batch of points and
    vertex values of length [nindex], the product of the matrix that
    [gradient_constraint] returns with the vertex values is [gradient(points)]
    flattened row by row, point after point (and one raises exactly when the
    other does); the matrix has shape (ndim * number of points, nindex). *)
Theorem gradient_constraint_dot_is_flat_gradient
    spatial_Delaunay linalg_inv lims num vals proj (self : Triangulation)
    (values : list Qc) (points : list (list Qc)) :
  Triangulation_init spatial_Delaunay linalg_inv lims num vals proj
  = Some self →
  regular_grid self →
  delaunay_contract self →
  inverts linalg_inv →
  vertex_values self = Some values →
  Z.of_nat (length values) = nindex self →
  Forall (λ p, length p = ndim self) points →
  (B ← gradient_constraint self points; Scipy.dot B values)
  = @concat Qc <$> gradient self points ∧
  (∀ B, gradient_constraint self points = Some B →
        Scipy.shape B
        = (Z.of_nat (ndim self * length points), nindex self)).
Proof.
  intros Hinit Hg Hdel Hinv Hvalues Hlength Hpoints.
  destruct (mapM (_get_weights_gradient_row self) points) as [rows|] eqn:Hrows.
  2:{ unfold gradient_constraint, gradient, _get_weights_gradient.
      rewrite Hrows. by split. }
  assert (Forall (λ row, length row.1 = ndim self ∧
                         Forall (λ w, length w = S (ndim self)) row.1 ∧
                         length row.2 = S (ndim self) ∧
                         Forall (λ v, 0 ≤ v < nindex self) row.2) rows)
    as Hshape.
  { pose proof Hrows as Hrel. apply mapM_Some in Hrel.
    eapply Forall2_Forall_r; [exact Hrel|]. intros p row Hrow.
    by apply (get_weights_gradient_row_shape _ _ _ _ _ _ _ p row Hinit Hg
                Hdel Hinv). }
  pose proof (length_mapM _ _ _ Hrows) as Hcount.
  assert (Forall (λ row, length row.1 = ndim self) rows) as Hblocks.
  { eapply Forall_impl; [|exact Hshape]. by intros row (? & _). }
  assert (Forall (λ r, length r.1 = S (ndim self) ∧
                       length r.2 = S (ndim self))
                 (rows ≫= block_rows)) as Hwidth.
  { apply Forall_bind. eapply Forall_impl; [|exact Hshape].
    intros [m s] (_ & Hm & Hs & _). unfold block_rows. simpl in *.
    apply Forall_fmap. eapply Forall_impl; [|exact Hm]. by intros w Hw. }
  assert (Forall (λ row, Forall (λ v, 0 ≤ v < Z.of_nat (length values)) row.2)
                 rows) as Hrange.
  { eapply Forall_impl; [|exact Hshape]. intros row (_ & _ & _ & Hr).
    by rewrite Hlength. }
  pose proof (blocks_length (ndim self) rows Hblocks) as Hflat.
  assert (gradient_constraint self points
          = Some {| Scipy.data := concat (rows ≫= block_rows).*1;
                    Scipy.row := Numpy.repeat
                                   (Numpy.arange (length (rows ≫= block_rows)))
                                   (S (ndim self));
                    Scipy.col := concat (rows ≫= block_rows).*2;
                    Scipy.shape := (Z.of_nat (ndim self * length points),
                                    nindex self) |})
    as HB.
  { unfold gradient_constraint, _get_weights_gradient. rewrite Hrows. simpl.
    rewrite blocks_data, (blocks_cols (ndim self)) by done.
    rewrite !length_fmap, <- Hcount.
    replace (length points * ndim self)%nat
      with (length (rows ≫= block_rows)) by (rewrite Hflat, Hcount; lia).
    unfold Scipy.coo_matrix_init. rewrite decide_True; [reflexivity|].
    rewrite length_repeat, length_arange.
    rewrite (length_concat_rows ((rows ≫= block_rows).*1) (S (ndim self))),
      (length_concat_rows ((rows ≫= block_rows).*2) (S (ndim self))),
      !length_fmap.
    - split; [lia|]. split; [done|]. split.
      + apply Forall_repeat. simpl.
        replace (ndim self * length points)%nat
          with (length (rows ≫= block_rows)) by (rewrite Hflat, Hcount; lia).
        apply Forall_arange.
      + apply Forall_concat, Forall_fmap. simpl.
        apply Forall_bind. eapply Forall_impl; [|exact Hshape].
        intros [m s] (_ & _ & _ & Hs). unfold block_rows. simpl in *.
        apply Forall_fmap, Forall_forall. by intros w _.
    - apply Forall_fmap. eapply Forall_impl; [|exact Hwidth].
      by intros row [_ ?].
    - apply Forall_fmap. eapply Forall_impl; [|exact Hwidth].
      by intros row [? _]. }
  rewrite HB. split.
  - rewrite (gradient_rows self values Hvalues points rows Hrows Hrange).
    simpl. unfold Scipy.dot. simpl. rewrite decide_True by done.
    rewrite Nat2Z.id. f_equal.
    replace (ndim self * length points)%nat
      with (length (rows ≫= block_rows)) by (rewrite Hflat, Hcount; lia).
    rewrite (dot_rows _ (S (ndim self))) by done.
    apply blocks_products.
  - by intros B [= <-].
Qed.

Lemma gradient_constraint_dot_is_flat_gradient_witness :
  ((B ← gradient_constraint Example.bump
          [[Example.frac 1 4; Example.frac 1 4];
           [Example.frac 3 4; Example.frac 7 8]];
    Scipy.dot B Example.bump_values)
   = @concat Qc <$> gradient Example.bump
       [[Example.frac 1 4; Example.frac 1 4];
        [Example.frac 3 4; Example.frac 7 8]] ∧
   (∀ B, gradient_constraint Example.bump
           [[Example.frac 1 4; Example.frac 1 4];
            [Example.frac 3 4; Example.frac 7 8]] = Some B →
         Scipy.shape B = (Z.of_nat (ndim Example.bump * 2),
                          nindex Example.bump))) ∧
  gradient Example.bump
    [[Example.frac 1 4; Example.frac 1 4];
     [Example.frac 3 4; Example.frac 7 8]]
  = Some [[Example.frac 2 1; Example.frac 2 1];
          [Example.frac 0 1; Example.frac 0 1]].
Proof.
  split; [|apply (bool_decide_unpack _); by vm_compute].
  apply (gradient_constraint_dot_is_flat_gradient Example.delaunay2
           Example.inv2 Example.unit_square (inl 2)
           (Some Example.bump_values) false Example.bump Example.bump_values
           [[Example.frac 1 4; Example.frac 1 4];
            [Example.frac 3 4; Example.frac 7 8]]).
  - apply example_constructed.
  - apply example_regular_grid.
  - apply example_delaunay_contract.
  - apply example_inverts.
  - done.
  - done.
  - by repeat constructor.
Defined.

(** * Further properties of the grid *)

(** X9.  On a regular grid whose vertex count fits int64, [index_to_state]
    returns exactly for batches of vertex indices in [0, nindex), and
    [rectangle_to_state] and [rectangle_corner_index] exactly for batches of
    rectangle indices in [0, nrectangles): any other index raises. *)
Theorem index_conversions_raise_out_of_range (g : GridWorld)
    (indices : list Z) :
  regular_grid g →
  fits_int64 g →
  (is_Some (index_to_state g indices)
   ↔ Forall (λ v, 0 ≤ v < nindex g) indices) ∧
  (is_Some (rectangle_to_state g indices)
   ↔ Forall (λ r, 0 ≤ r < nrectangles g) indices) ∧
  (is_Some (rectangle_corner_index g indices)
   ↔ Forall (λ r, 0 ≤ r < nrectangles g) indices).
Proof.
  intros Hg _.
  unfold index_to_state, rectangle_to_state, rectangle_corner_index.
  rewrite !mapM_is_Some.
  split; [|split].
  - apply Forall_proper; [|done]. intros v.
    by apply index_to_state_row_is_Some.
  - apply Forall_proper; [|done]. intros r.
    by apply rectangle_to_state_row_is_Some.
  - apply Forall_proper; [|done]. intros r.
    by apply rectangle_corner_index_row_is_Some.
Qed.

Lemma index_conversions_raise_out_of_range_witness :
  (is_Some (index_to_state Example.plane [0; 9; -1])
   ↔ Forall (λ v, 0 ≤ v < nindex Example.plane) [0; 9; -1]) ∧
  (is_Some (rectangle_to_state Example.plane [0; 9; -1])
   ↔ Forall (λ r, 0 ≤ r < nrectangles Example.plane) [0; 9; -1]) ∧
  (is_Some (rectangle_corner_index Example.plane [0; 9; -1])
   ↔ Forall (λ r, 0 ≤ r < nrectangles Example.plane) [0; 9; -1]).
Proof.
  apply (index_conversions_raise_out_of_range Example.plane [0; 9; -1]).
  - apply example_regular_grid.
  - by vm_compute.
Defined.

(** X10.  On a regular grid whose vertex count fits int64, for every batch
    of rectangle indices,
    [index_to_state] of the indices that [rectangle_corner_index] returns is
    what [rectangle_to_state] returns (and one raises exactly when the other
    does): the corner index of a rectangle is the vertex index of its
    bottom-left corner state. *)
Theorem corner_index_is_corner_state (g : GridWorld) (rectangles : list Z) :
  regular_grid g →
  fits_int64 g →
  rectangle_corner_index g rectangles ≫= index_to_state g
  = rectangle_to_state g rectangles.
Proof.
  intros Hg _.
  unfold rectangle_corner_index, index_to_state, rectangle_to_state.
  rewrite mapM_bind_compose.
  induction rectangles as [|r rectangles IH]; [done|].
  by rewrite !mapM_cons, IH, corner_index_state.
Qed.

Lemma corner_index_is_corner_state_witness :
  rectangle_corner_index Example.plane [0; 1; 2; 3]
    ≫= index_to_state Example.plane
  = rectangle_to_state Example.plane [0; 1; 2; 3].
Proof.
  apply (corner_index_is_corner_state Example.plane [0; 1; 2; 3]).
  - apply example_regular_grid.
  - by vm_compute.
Defined.

(** * Further properties of [PiecewiseConstant] *)

(** X5.  On a regular grid with [nindex] vertex values, for every batch of
    points [PiecewiseConstant.evaluate_constraint] returns a matrix of shape
    (number of points, nindex) with one entry 1 per point, its product with
    the vertex values is what [PiecewiseConstant.evaluate] returns, and the
    points clipped to the limits evaluate to the same values. *)
Theorem PiecewiseConstant_evaluate_constraint_dot (g : GridWorld)
    (values : list Qc) (points : list (list Qc)) :
  regular_grid g →
  vertex_values g = Some values →
  Z.of_nat (length values) = nindex g →
  Forall (λ p, length p = ndim g) points →
  ∃ B result,
    PiecewiseConstant.evaluate_constraint g points = Some B ∧
    Scipy.shape B = (Z.of_nat (length points), nindex g) ∧
    Forall (λ w, w = 1%Qc) (Scipy.data B) ∧
    length (Scipy.data B) = length points ∧
    PiecewiseConstant.evaluate g points = Some result ∧
    Scipy.dot B values = Some result ∧
    PiecewiseConstant.evaluate g (clip_to_limits g <$> points) = Some result.
Proof.
  intros Hg Hvalues Hlength Hpoints.
  destruct (state_to_index_Some g points Hg Hpoints) as (nodes & Hnodes & Hr).
  pose proof (length_mapM _ _ _ Hnodes) as Hcount.
  exists {| Scipy.data := replicate (length points) 1%Qc;
            Scipy.row := Numpy.arange (length points);
            Scipy.col := nodes;
            Scipy.shape := (Z.of_nat (length points), nindex g) |},
         (values_of values nodes).
  split.
  { unfold PiecewiseConstant.evaluate_constraint. rewrite Hnodes. simpl.
    unfold Scipy.coo_matrix_init. rewrite decide_True; [done|].
    rewrite length_replicate, length_arange. simpl.
    split; [done|]. split; [done|]. split; [apply Forall_arange|done]. }
  split; [done|]. simpl.
  split; [by apply Forall_replicate|].
  split; [by rewrite length_replicate|].
  assert (PiecewiseConstant.evaluate g points
          = Some (values_of values nodes)) as Hresult.
  { unfold PiecewiseConstant.evaluate. rewrite Hnodes, Hvalues. simpl.
    apply getitems_in_range. by rewrite Hlength. }
  split; [done|]. split.
  - unfold Scipy.dot. simpl. rewrite decide_True by done.
    rewrite Nat2Z.id, Hcount. f_equal. apply selection_dot.
  - rewrite <- Hresult. unfold PiecewiseConstant.evaluate.
    by rewrite state_to_index_clip_to_limits.
Qed.

Lemma PiecewiseConstant_evaluate_constraint_dot_witness :
  ∃ B result,
    PiecewiseConstant.evaluate_constraint Example.plane
      [[Example.frac 1 4; Example.frac 7 8];
       [Example.frac 5 1; Example.frac (-3) 1]] = Some B ∧
    Scipy.shape B = (2, nindex Example.plane) ∧
    Forall (λ w, w = 1%Qc) (Scipy.data B) ∧
    length (Scipy.data B) = 2%nat ∧
    PiecewiseConstant.evaluate Example.plane
      [[Example.frac 1 4; Example.frac 7 8];
       [Example.frac 5 1; Example.frac (-3) 1]] = Some result ∧
    Scipy.dot B Example.plane_values = Some result ∧
    PiecewiseConstant.evaluate Example.plane
      (clip_to_limits Example.plane <$>
         [[Example.frac 1 4; Example.frac 7 8];
          [Example.frac 5 1; Example.frac (-3) 1]]) = Some result.
Proof.
  apply (PiecewiseConstant_evaluate_constraint_dot Example.plane
           Example.plane_values
           [[Example.frac 1 4; Example.frac 7 8];
            [Example.frac 5 1; Example.frac (-3) 1]]).
  - apply example_regular_grid.
  - done.
  - done.
  - by repeat constructor.
Defined.
